(** * Verification of the two operational scripts

    - [scripts/patch-wasm-types.py]: the dependency patcher ([patch_file]);
    - [scripts/run-manticore.py]: the analysis runner ([main]).

    Python [str] values are sequences of Unicode code points; they are
    embedded as lists of [N].  The builtins the scripts call ([in],
    [str.startswith], [str.strip], [str.replace], [str.split], [str.join],
    [list.insert]) are written out as recursive functions.  Printing, the
    file write, the working-directory change and the child process are
    recorded as explicit results (a trace of events, an optional written
    text, an exit code). *)

From Stdlib Require Import List NArith ZArith Bool Lia String Ascii DecimalString.
Import ListNotations.

Set Implicit Arguments.

(* ================================================================== *)
(** * Python strings *)
(* ================================================================== *)

Module PyStr.

(** A code point. *)
Definition char := N.

(** A Python [str]. *)
Definition pystr := list char.

(** An ASCII literal of the source, as a Python [str]. *)
Definition py (s : string) : pystr :=
  map N_of_ascii (list_ascii_of_string s).

(** [s.startswith(p)] *)
Fixpoint startswith (s p : pystr) {struct p} : bool :=
  match p, s with
  | [], _ => true
  | _ :: _, [] => false
  | a :: p', b :: s' => N.eqb a b && startswith s' p'
  end.

(** [p in s] for strings: [p] occurs in [s] at some position. *)
Fixpoint str_in (p s : pystr) : bool :=
  startswith s p ||
  match s with
  | [] => false
  | _ :: s' => str_in p s'
  end.

(** Code points for which [str.isspace] holds; these are what
    [str.strip()] removes. *)
Definition isspace (c : char) : bool :=
  ((9 <=? c) && (c <=? 13) || (28 <=? c) && (c <=? 32)
   || (c =? 133) || (c =? 160) || (c =? 5760)
   || (8192 <=? c) && (c <=? 8202)
   || (c =? 8232) || (c =? 8233) || (c =? 8239) || (c =? 8287)
   || (c =? 12288))%N.

(** [s.lstrip()] *)
Fixpoint lstrip (s : pystr) : pystr :=
  match s with
  | [] => []
  | c :: s' => if isspace c then lstrip s' else s
  end.

(** [s.rstrip()] *)
Definition rstrip (s : pystr) : pystr := rev (lstrip (rev s)).

(** [s.strip()] *)
Definition strip (s : pystr) : pystr := rstrip (lstrip s).

(** [sep.join(l)] *)
Fixpoint str_join (sep : pystr) (l : list pystr) : pystr :=
  match l with
  | [] => []
  | [x] => x
  | x :: rest => x ++ sep ++ str_join sep rest
  end.

(** The scan shared by [str.replace] and [str.split]: occurrences of a
    non-empty pattern are taken from the left and do not overlap.  The
    fuel argument bounds the number of scan steps; the length of the text
    is always enough. *)
Fixpoint replace_scan (fuel : nat) (old new s : pystr) : pystr :=
  match fuel with
  | O => s
  | S fuel' =>
      match s with
      | [] => []
      | c :: s' =>
          if startswith s old
          then new ++ replace_scan fuel' old new (skipn (List.length old) s)
          else c :: replace_scan fuel' old new s'
      end
  end.

(** [s.replace(old, new)].  With an empty [old], Python puts [new] before
    every character and at the end. *)
Definition str_replace (old new s : pystr) : pystr :=
  match old with
  | [] => new ++ flat_map (fun c => c :: new) s
  | _ :: _ => replace_scan (List.length s) old new s
  end.

Fixpoint split_scan (fuel : nat) (sep s : pystr) : list pystr :=
  match fuel with
  | O => [s]
  | S fuel' =>
      match s with
      | [] => [[]]
      | c :: s' =>
          if startswith s sep
          then [] :: split_scan fuel' sep (skipn (List.length sep) s)
          else match split_scan fuel' sep s' with
               | [] => [[c]]
               | h :: t => (c :: h) :: t
               end
      end
  end.

(** [s.split(sep)].  Python raises [ValueError] on an empty separator;
    the scripts only split on a one-character literal, and the embedding
    returns the text unsplit in that case. *)
Definition str_split (sep s : pystr) : list pystr :=
  match sep with
  | [] => [s]
  | _ :: _ => split_scan (List.length s) sep s
  end.

(** The line feed, written ['\n'] in the source. *)
Definition NL : pystr := [10%N].

(** [l.insert(i, x)] for [0 <= i]: an index past the end appends. *)
Definition list_insert {A : Type} (i : nat) (x : A) (l : list A) : list A :=
  firstn i l ++ x :: skipn i l.

(** [str(n)] for an [int]. *)
Definition str_of_int (n : Z) : pystr :=
  py (NilZero.string_of_int (Z.to_int n)).

End PyStr.

Import PyStr.

(* ================================================================== *)
(** * scripts/patch-wasm-types.py *)
(* ================================================================== *)

Module Patcher.

(** The literals of [patch_file]. *)
Definition DEPRECATED : pystr := py "collections.Callable".
Definition UPDATED : pystr := py "collections.abc.Callable".
Definition IMPORT_ABC : pystr := py "import collections.abc".
Definition IMPORT_COLLECTIONS : pystr := py "import collections".
Definition IMPORT_LINE : pystr := py "import collections" ++ NL.
Definition IMPORT_LINES : pystr :=
  py "import collections" ++ NL ++ py "import collections.abc" ++ NL.
Definition ABC_LINE : pystr := IMPORT_ABC ++ NL.
Definition TRIPLE_DOUBLE : pystr := [34; 34; 34]%N.
Definition TRIPLE_SINGLE : pystr := [39; 39; 39]%N.

(** What one call of [patch_file] does: the lines it prints, the text it
    writes back (if it opens the file for writing) and its return value. *)
Record outcome := {
  printed : list pystr;
  written : option pystr;
  returned : bool
}.

(** The text of the file once the call is over. *)
Definition file_after (content : pystr) (o : outcome) : pystr :=
  match written o with
  | Some w => w
  | None => content
  end.

(** Line 35: the "already patched" test. *)
Definition already_patched (content : pystr) : bool :=
  str_in (py "collections.abc") content &&
  str_in (py "from collections.abc import") content.

(** The condition of line 51 on one line. *)
Definition is_code_line (line : pystr) : bool :=
  negb (startswith (strip line) (py "#")) &&
  negb (startswith (strip line) TRIPLE_DOUBLE) &&
  negb (startswith (strip line) TRIPLE_SINGLE).

(** Lines 49-53: [insert_pos] stays 0 unless the loop breaks at the first
    line that passes the test; [i] is the index [enumerate] has reached. *)
Fixpoint find_insert_pos (i : nat) (lines : list pystr) : nat :=
  match lines with
  | [] => 0
  | line :: rest =>
      if is_code_line line then i else find_insert_pos (S i) rest
  end.

(** Lines 43-55: add the import if not present. *)
Definition add_import (content : pystr) : pystr :=
  if negb (str_in IMPORT_ABC content) then
    if str_in IMPORT_COLLECTIONS content then
      str_replace IMPORT_LINE IMPORT_LINES content
    else
      let lines := str_split NL content in
      let insert_pos := find_insert_pos 0 lines in
      let lines := list_insert insert_pos IMPORT_ABC lines in
      str_join NL lines
  else content.

(** Lines 40-58: the text transformation. *)
Definition transform (content : pystr) : pystr :=
  str_replace DEPRECATED UPDATED (add_import content).

Definition pystr_eq_dec : forall a b : pystr, {a = b} + {a <> b} :=
  list_eq_dec N.eq_dec.

(** [patch_file(file_path)] on a file whose text is [content]. *)
Definition patch_file (file_path content : pystr) : outcome :=
  let banner := py "Patching " ++ file_path ++ py "..." in
  if already_patched content then
    {| printed := [banner; py "File already patched."];
       written := None; returned := true |}
  else
    let original_content := content in
    let content := transform content in
    if pystr_eq_dec content original_content then
      {| printed := [banner; py "No changes needed."];
         written := None; returned := true |}
    else
      {| printed := [banner; py "File patched successfully."];
         written := Some content; returned := true |}.

End Patcher.

(* ================================================================== *)
(** * scripts/run-manticore.py *)
(* ================================================================== *)

Module Runner.

(** An absolute POSIX path, as the list of its components. *)
Definition path := list pystr.

(** [str(p)] for an absolute path. *)
Definition str_of_path (p : path) : pystr :=
  match p with
  | [] => py "/"
  | _ :: _ => flat_map (fun c => py "/" ++ c) p
  end.

(** [str(p)] for a relative path. *)
Definition str_of_relpath (p : path) : pystr :=
  match p with
  | [] => py "."
  | _ :: _ => str_join (py "/") p
  end.

Definition pystr_eqb (a b : pystr) : bool :=
  if list_eq_dec N.eq_dec a b then true else false.

(** [p.relative_to(base)]: [None] stands for the [ValueError] raised when
    [base] is not a prefix of [p]. *)
Fixpoint relative_to (p base : path) : option path :=
  match base, p with
  | [], _ => Some p
  | _ :: _, [] => None
  | b :: base', c :: p' =>
      if pystr_eqb b c then relative_to p' base' else None
  end.

(** An entry of the project root directory. *)
Record dir_entry := {
  entry_name : pystr;
  entry_is_dir : bool
}.

(** The fixed prefix of the result directories. *)
Definition RESULT_PREFIX : pystr := py "mcore_".

(** [project_root.glob("mcore_*")]: the entries of the directory whose
    name matches the pattern, in the order the directory yields them, as
    paths under the root.  The pattern does not look at the kind of the
    entry. *)
Definition glob_mcore (root : path) (listing : list dir_entry) : list path :=
  map (fun e => root ++ [entry_name e])
      (filter (fun e => startswith (entry_name e) RESULT_PREFIX) listing).

(** The parsed command line. *)
Record args := {
  contract_path : pystr;
  contract : pystr;
  timeout : Z
}.

(** What [subprocess.run] meets. *)
Inductive child_behaviour :=
| Terminates (returncode : Z)  (* the child exits within the timeout *)
| Overruns (eventual : Z)      (* still running at the timeout; it would
                                  have exited with [eventual] *)
| Missing                      (* no [manticore] binary *)
| Fails (text : pystr).        (* any other exception, [str(e) = text] *)

(** The surroundings of one run. *)
Record world := {
  project_root : path;
  remappings_exists : bool;
  node_modules_exists : bool;
  remappings_read : option (list pystr);
    (* the lines iterating [remappings.txt] yields; [None] when opening
       or reading it raises (a directory, no permission, bytes that are
       not UTF-8) *)
  stdout_accepts : pystr -> bool;
    (* whether [print(text)] to the standard output goes through; it
       raises otherwise (the stream cannot encode the text, or cannot be
       written) *)
  child : child_behaviour;
  root_entries : list dir_entry    (* the root when [glob] is called *)
}.

Inductive stream := Stdout | Stderr.

(** What a run does to the outside, in order.  [Print s text] is
    [print(text, file=s)]. *)
Inductive event :=
| Chdir (p : path)
| Print (s : stream) (text : pystr)
| SubprocessRun (cmd : list pystr) (cwd : path) (seconds : Z)
| PrintExc.

Inductive exn :=
| SystemExit (code : Z)
| TimeoutExpired
| FileNotFoundError
| ValueError (p base : path)
| PrintError (text : pystr)      (* what a failing [print(text)] raises *)
| ReadError                      (* raised opening or reading the file *)
| OtherException (text : pystr).

(** The result of a run: its trace and the argument of [sys.exit]. *)
Record run := {
  trace : list event;
  exit_code : Z
}.

(** The status a POSIX parent sees for [sys.exit(code)]. *)
Definition exit_status (code : Z) : Z := code mod 256.

(** Lines 42-48. *)
Definition read_remappings (lines : list pystr) : list pystr :=
  fold_left
    (fun remappings line =>
       let line := strip line in
       if negb (pystr_eqb line []) && negb (startswith line (py "#"))
       then remappings ++ [line]
       else remappings)
    lines [].

(** Lines 53-61. *)
Definition build_cmd (a : args) (remappings : list pystr) : list pystr :=
  let cmd := [py "manticore"; contract_path a] in
  let cmd := cmd ++ [py "--contract"; contract a] in
  let cmd :=
    fold_left (fun cmd remap => cmd ++ [py "--solc-remaps"; remap])
              remappings cmd in
  cmd ++ [py "-v"].

Definition CHECK : pystr := [10003%N].
Definition WARN : pystr := [9888%N].
Definition CROSS : pystr := [10007%N].

Definition msg_success : pystr :=
  NL ++ CHECK ++ py " Manticore analysis completed successfully!".

Definition msg_warnings (returncode : Z) : pystr :=
  NL ++ WARN ++ py " Manticore analysis completed with warnings (exit code: "
     ++ str_of_int returncode ++ py ")".

Definition msg_no_dirs : pystr :=
  NL ++ WARN
     ++ py " No mcore_* directories found - analysis may not have generated results".

Definition msg_timed_out (seconds : Z) : pystr :=
  NL ++ WARN ++ py " Manticore analysis timed out after "
     ++ str_of_int seconds ++ py "s".

Definition msg_entry (rel : path) : pystr :=
  py "  - " ++ str_of_relpath rel.

(** The heading of the listing, by the way the child ended. *)
Definition RESULTS_HEADING : pystr := NL ++ py "Results saved in:".
Definition PARTIAL_HEADING : pystr := NL ++ py "Partial results found in:".

(** The entries [glob] keeps. *)
Definition matching (listing : list dir_entry) : list dir_entry :=
  filter (fun e => startswith (entry_name e) RESULT_PREFIX) listing.

(** The lines the loops of lines 87-88 and 103-104 print for a listing. *)
Definition entry_lines (listing : list dir_entry) : list event :=
  map (fun e => Print Stdout (py "  - " ++ entry_name e)) (matching listing).

(** What goes to the error stream. *)
Definition to_stderr (e : event) : bool :=
  match e with
  | Print Stderr _ | PrintExc => true
  | _ => false
  end.

(** A call of [subprocess.run]. *)
Definition is_run (e : event) : bool :=
  match e with
  | SubprocessRun _ _ _ => true
  | _ => false
  end.

(** Both configuration checks of lines 28-39 pass. *)
Definition configured (w : world) : Prop :=
  remappings_exists w = true /\ node_modules_exists w = true.

(** The command for the lines read, and the call of [subprocess.run] on
    it. *)
Definition the_cmd (a : args) (lines : list pystr) : list pystr :=
  build_cmd a (read_remappings lines).

Definition the_call (a : args) (w : world) (lines : list pystr) : event :=
  SubprocessRun (the_cmd a lines) (project_root w) (timeout a).

(** The names the listing loops go through. *)
Definition entry_texts (listing : list dir_entry) : list pystr :=
  map (fun e => py "  - " ++ entry_name e) (matching listing).

(** What lines 78-90 print when the child has ended with [returncode]. *)
Definition completion_texts (w : world) (returncode : Z) : list pystr :=
  (if (returncode =? 0)%Z then msg_success else msg_warnings returncode)
  :: match matching (root_entries w) with
     | [] => [msg_no_dirs]
     | _ :: _ => RESULTS_HEADING :: entry_texts (root_entries w)
     end.

(** What lines 95-104 print after a timeout. *)
Definition timeout_texts (a : args) (w : world) : list pystr :=
  msg_timed_out (timeout a)
  :: py "Partial results may be available in mcore_* directories"
  :: match matching (root_entries w) with
     | [] => []
     | _ :: _ => PARTIAL_HEADING :: entry_texts (root_entries w)
     end.

(** The standard output takes every one of the texts. *)
Definition accepted (w : world) (texts : list pystr) : bool :=
  forallb (stdout_accepts w) texts.

(** A stretch of the script: the events up to its end or up to the
    exception it raises. *)
Definition step := (list event * option exn)%type.

(** [print(text)]: the line is written, or the call raises and nothing
    of the line is written. *)
Definition say (w : world) (text : pystr) : step :=
  if stdout_accepts w text then ([Print Stdout text], None)
  else ([], Some (PrintError text)).

(** One stretch after the other; an exception ends both. *)
Definition and_then (s k : step) : step :=
  match s with
  | (t, None) => let (t', r) := k in (t ++ t', r)
  | (t, Some e) => (t, Some e)
  end.

(** A run of [print] calls. *)
Fixpoint say_all (w : world) (texts : list pystr) : step :=
  match texts with
  | [] => ([], None)
  | x :: rest => and_then (say w x) (say_all w rest)
  end.

(** The loops of lines 87-88 and 103-104: one line per directory, until
    [relative_to] or [print] raises. *)
Fixpoint print_dirs (w : world) (root : path) (dirs : list path) : step :=
  match dirs with
  | [] => ([], None)
  | d :: rest =>
      match relative_to d root with
      | None => ([], Some (ValueError d root))
      | Some rel => and_then (say w (msg_entry rel)) (print_dirs w root rest)
      end
  end.

Section Interpreter.

(** Two formatting functions of the interpreter are left open: [repr] of
    a list of strings and [str] of an exception. *)
Variable repr_list : list pystr -> pystr.
Variable str_exn : exn -> pystr.

(** Lines 70-92, the body of [try]: it always ends by raising, be it
    [SystemExit]. *)
Definition try_body (a : args) (w : world) (cmd : list pystr)
  : list event * exn :=
  let call := SubprocessRun cmd (project_root w) (timeout a) in
  match child w with
  | Overruns _ => ([call], TimeoutExpired)
  | Missing => ([call], FileNotFoundError)
  | Fails text => ([call], OtherException text)
  | Terminates returncode =>
      let verdict :=
        if (returncode =? 0)%Z then msg_success
        else msg_warnings returncode in
      let mcore_dirs := glob_mcore (project_root w) (root_entries w) in
      let (t, raised) :=
        and_then (say w verdict)
          match mcore_dirs with
          | _ :: _ =>
              and_then (say w RESULTS_HEADING)
                       (print_dirs w (project_root w) mcore_dirs)
          | [] => say w msg_no_dirs
          end in
      (call :: t,
       match raised with
       | Some e => e
       | None => SystemExit returncode
       end)
  end.

(** Lines 94-106, the handler of [subprocess.TimeoutExpired]. *)
Definition on_timeout (a : args) (w : world) : list event * exn :=
  let mcore_dirs := glob_mcore (project_root w) (root_entries w) in
  let (t, raised) :=
    and_then (say w (msg_timed_out (timeout a)))
      (and_then
         (say w (py "Partial results may be available in mcore_* directories"))
         match mcore_dirs with
         | _ :: _ =>
             and_then (say w PARTIAL_HEADING)
                      (print_dirs w (project_root w) mcore_dirs)
         | [] => ([], None)
         end) in
  (t,
   match raised with
   | Some e => e
   | None => SystemExit 124
   end).

(** Lines 108-111. *)
Definition on_not_found : list event * exn :=
  ([Print Stderr (NL ++ CROSS ++ py " Error: manticore command not found");
    Print Stderr
      (py "Please ensure Manticore is installed: pip install manticore[native]")],
   SystemExit 1).

(** Lines 113-117. *)
Definition on_exception (e : exn) : list event * exn :=
  ([Print Stderr
      (NL ++ CROSS ++ py " Unexpected error running Manticore: " ++ str_exn e);
    PrintExc],
   SystemExit 1).

(** The [try] statement: [SystemExit] is not an [Exception] and passes
    through; an exception raised inside a handler is not handled again. *)
Definition try_statement (a : args) (w : world) (cmd : list pystr)
  : list event * exn :=
  let (t, e) := try_body a w cmd in
  match e with
  | SystemExit _ => (t, e)
  | TimeoutExpired => let (t', e') := on_timeout a w in (t ++ t', e')
  | FileNotFoundError => let (t', e') := on_not_found in (t ++ t', e')
  | ValueError _ _ | PrintError _ | ReadError | OtherException _ =>
      let (t', e') := on_exception e in (t ++ t', e')
  end.

(** How the interpreter ends: [SystemExit c] exits with [c]; anything else
    is an uncaught exception, reported with a traceback and code 1. *)
Definition finish (r : list event * exn) : run :=
  match r with
  | (t, SystemExit c) => {| trace := t; exit_code := c |}
  | (t, _) => {| trace := t ++ [PrintExc]; exit_code := 1 |}
  end.

(** Lines 50 and 63-66: what is printed before the child is run. *)
Definition announce_texts (a : args) (w : world) (remappings cmd : list pystr)
  : list pystr :=
  [py "Using remappings: " ++ repr_list remappings;
   NL ++ py "Running command: " ++ str_join (py " ") cmd;
   py "Working directory: " ++ str_of_path (project_root w);
   NL ++ py "Starting Manticore analysis (timeout: "
      ++ str_of_int (timeout a) ++ py "s)...";
   py "This may take several minutes..." ++ NL].

(** [main()] once the arguments are parsed.  What is raised outside the
    [try] statement, or inside one of its handlers, is not caught. *)
Definition main (a : args) (w : world) : run :=
  let project_root := project_root w in
  let t0 := [Chdir project_root] in
  let remappings_file := project_root ++ [py "remappings.txt"] in
  if negb (remappings_exists w) then
    finish
      (t0 ++ [Print Stderr (py "Error: remappings.txt not found at "
                               ++ str_of_path remappings_file)],
       SystemExit 1)
  else
    let node_modules := project_root ++ [py "node_modules"] in
    if negb (node_modules_exists w) then
      finish
        (t0 ++ [Print Stderr (py "Error: node_modules not found at "
                                 ++ str_of_path node_modules);
                Print Stderr (py "Please run 'npm ci' first")],
         SystemExit 1)
    else
      match remappings_read w with
      | None => finish (t0, ReadError)
      | Some lines =>
          let remappings := read_remappings lines in
          let cmd := build_cmd a remappings in
          match say_all w (announce_texts a w remappings cmd) with
          | (t1, Some e) => finish (t0 ++ t1, e)
          | (t1, None) =>
              let (t2, e) := try_statement a w cmd in
              finish (t0 ++ t1 ++ t2, e)
          end
      end.

(** The run gets as far as calling [subprocess.run]: both checks pass,
    the file is read, and the lines before the call are all printed. *)
Definition reaches_child (a : args) (w : world) (lines : list pystr) : Prop :=
  configured w /\ remappings_read w = Some lines
  /\ accepted w (announce_texts a w (read_remappings lines) (the_cmd a lines))
     = true.

(** What is printed once the child has ended or run into the timeout. *)
Definition after_child_texts (a : args) (w : world) : list pystr :=
  match child w with
  | Terminates c => completion_texts w c
  | Overruns _ => timeout_texts a w
  | Missing | Fails _ => []
  end.

(** Whether the run gets as far as calling [subprocess.run]. *)
Definition spawns (a : args) (w : world) : bool :=
  remappings_exists w && node_modules_exists w
  && match remappings_read w with
     | None => false
     | Some lines =>
         accepted w (announce_texts a w (read_remappings lines)
                                    (the_cmd a lines))
     end.

(** Nothing fails: both checks pass, the file is read, every line is
    printed, and the child ends or runs into the timeout. *)
Definition clean (a : args) (w : world) : bool :=
  remappings_exists w && node_modules_exists w
  && match remappings_read w with
     | None => false
     | Some lines =>
         accepted w (announce_texts a w (read_remappings lines)
                                    (the_cmd a lines))
         && match child w with
            | Terminates c => accepted w (completion_texts w c)
            | Overruns _ => accepted w (timeout_texts a w)
            | Missing | Fails _ => false
            end
     end.

End Interpreter.

(** ** The remapping file as the specification words it *)

Definition blank (l : pystr) : bool := pystr_eqb l [].
Definition comment (l : pystr) : bool := startswith l (py "#").
Definition is_entry (l : pystr) : bool := negb (blank l) && negb (comment l).

(** The whitespace-stripped lines that are neither blank nor comments, in
    file order. *)
Definition kept_lines (lines : list pystr) : list pystr :=
  filter is_entry (map strip lines).

End Runner.

(* ================================================================== *)
(** * scripts/patch-wasm-types.py: finding the file, and [main] *)
(* ================================================================== *)

Module PatcherMain.
Import Patcher Runner.

(** How [open(file_path, 'w')] with [f.write(content)] ends: the file
    holds the text, or an exception is raised.  Opening truncates the
    file, so an exception that comes once the file is open leaves it with
    the part written so far, maybe nothing; one raised by [open] itself
    leaves the file as it was. *)
Inductive write_result :=
| Written
| WriteFailed (left_in_file : option pystr) (e : pystr).

(** The installation the script runs in.  Reading, writing and printing
    to the standard output may raise; the text of the exception is then
    given. *)
Record install := {
  site_packages : list path;            (* [site.getsitepackages()] *)
  user_site : path;                     (* [site.getusersitepackages()] *)
  is_file : path -> bool;               (* [Path.exists] *)
  read_text : path -> pystr + pystr;    (* the text, or [str(e)] *)
  write_text : path -> pystr -> write_result;
  stdout_error : pystr -> option pystr
    (* [None] when [print(text)] goes through, else [str(e)] of what it
       raises (the stream cannot encode the text, or cannot be written) *)
}.

(** [Path(sp) / "wasm" / "types.py"] *)
Definition types_under (sp : path) : path :=
  sp ++ [py "wasm"; py "types.py"].

(** Lines 14-17: the loop over the site-packages directories. *)
Fixpoint first_types_py (exists_ : path -> bool) (sps : list path)
  : option path :=
  match sps with
  | [] => None
  | sp :: rest =>
      let wasm_types := types_under sp in
      if exists_ wasm_types then Some wasm_types
      else first_types_py exists_ rest
  end.

(** [find_wasm_types()] *)
Definition find_wasm_types (i : install) : option path :=
  match first_types_py (is_file i) (site_packages i) with
  | Some wasm_types => Some wasm_types
  | None =>
      let wasm_types := types_under (user_site i) in
      if is_file i wasm_types then Some wasm_types else None
  end.

(** What the script does to the outside: a line printed, or the file
    left holding a text. *)
Inductive io_event :=
| Say (s : stream) (text : pystr)
| Store (file : path) (text : pystr).

(** [print(text)]: the line is written, or the call raises and nothing
    of the line is written. *)
Definition out (i : install) (text : pystr) : list io_event * option pystr :=
  match stdout_error i text with
  | None => ([Say Stdout text], None)
  | Some e => ([], Some e)
  end.

(** The last [print] of a branch of [patch_file], then [return True]. *)
Definition say_and_return (i : install) (t : list io_event) (text : pystr)
  : list io_event * (bool + pystr) :=
  match out i text with
  | (t', None) => (t ++ t', inl true)
  | (t', Some e) => (t ++ t', inr e)
  end.

(** [patch_file(file_path)] with its reads and writes: the events up to
    the return or the exception, and the value returned ([inl]) or the
    text of the exception raised ([inr]). *)
Definition patch_file_io (i : install) (file_path : path)
  : list io_event * (bool + pystr) :=
  match out i (py "Patching " ++ str_of_path file_path ++ py "...") with
  | (t, Some e) => (t, inr e)
  | (t, None) =>
      match read_text i file_path with
      | inr e => (t, inr e)
      | inl content =>
          if already_patched content then
            say_and_return i t (py "File already patched.")
          else
            let original_content := content in
            let content := transform content in
            if pystr_eq_dec content original_content then
              say_and_return i t (py "No changes needed.")
            else
              match write_text i file_path content with
              | Written =>
                  say_and_return i (t ++ [Store file_path content])
                                 (py "File patched successfully.")
              | WriteFailed None e => (t, inr e)
              | WriteFailed (Some part) e =>
                  (t ++ [Store file_path part], inr e)
              end
      end
  end.

(** Lines 80-82, the handler of [main]. *)
Definition on_error (t : list io_event) (e : pystr) : list io_event * Z :=
  (t ++ [Say Stderr (py "Error patching file: " ++ e)], 1%Z).

(** [main()]: the events and the exit code. *)
Definition main (i : install) : list io_event * Z :=
  match find_wasm_types i with
  | None =>
      ([Say Stderr
          (py "Error: Could not find wasm/types.py in installed packages.");
        Say Stderr (py "Make sure the wasm package is installed.")],
       1%Z)
  | Some wasm_types =>
      match patch_file_io i wasm_types with
      | (t, inl _) =>
          match out i (py "Patch applied successfully!") with
          | (t', None) => (t ++ t', 0%Z)
          | (t', Some e) => on_error (t ++ t') e
          end
      | (t, inr e) => on_error t e
      end
  end.

(** The files a trace writes. *)
Fixpoint stores (t : list io_event) : list (path * pystr) :=
  match t with
  | [] => []
  | Store f x :: t' => (f, x) :: stores t'
  | Say _ _ :: t' => stores t'
  end.


End PatcherMain.

(* ================================================================== *)
(** * scripts/run-manticore.py: reading the remappings file *)
(* ================================================================== *)

Module RunnerFile.
Import Runner.

(** [for line in f] on a file opened in text mode, whose text (decoded,
    line ends translated to ['\n']) is [text]: each line runs up to and
    including its line feed; a last line without one is yielded as it
    is. *)
Fixpoint file_lines (text : pystr) : list pystr :=
  match text with
  | [] => []
  | c :: text' =>
      if N.eqb c 10 then [c] :: file_lines text'
      else match file_lines text' with
           | [] => [[c]]
           | line :: rest => (c :: line) :: rest
           end
  end.

(** Lines 42-48 on the text of the file. *)
Definition parse_remappings (text : pystr) : list pystr :=
  read_remappings (file_lines text).

End RunnerFile.

(* ================================================================== *)
(** * More sample inputs *)
(* ================================================================== *)

Module MoreSamples.
Import Patcher Runner PatcherMain.

Definition dist_packages : path :=
  [py "usr"; py "lib"; py "python3"; py "dist-packages"].
Definition local_packages : path :=
  [py "usr"; py "local"; py "lib"; py "python3.10"; py "dist-packages"].
Definition home_packages : path :=
  [py "home"; py "dev"; py ".local"; py "lib"; py "python3.10";
   py "site-packages"].

Definition path_eqb (a b : path) : bool :=
  if list_eq_dec (list_eq_dec N.eq_dec) a b then true else false.

(** An installation with [wasm] under [/usr/local] and under the user
    directory, both holding the same old text; every write goes through. *)
Definition two_copies : install :=
  {| site_packages := [dist_packages; local_packages];
     user_site := home_packages;
     is_file := fun p => path_eqb p (types_under local_packages)
                         || path_eqb p (types_under home_packages);
     read_text := fun _ =>
       inl (py "import collections" ++ NL
            ++ py "f = collections.Callable" ++ NL);
     write_text := fun _ _ => Written;
     stdout_error := fun _ => None |}.


(** A module that imports [collections] under another name. *)
Definition aliased_text : pystr :=
  py "import collections as c" ++ NL
  ++ py "f = collections.Callable" ++ NL.

(** A module without any import of [collections]. *)
Definition bare_text : pystr :=
  py "# types" ++ NL ++ py "f = 1" ++ NL.

(** A configured project without result directories. *)
Definition clean_project (c : child_behaviour) : world :=
  {| project_root := [py "srv"; py "repo"];
     remappings_exists := true;
     node_modules_exists := true;
     remappings_read := Some [py "@oz/=node_modules/@oz/" ++ NL];
     stdout_accepts := fun _ => true;
     child := c;
     root_entries := [{| entry_name := py "contracts"; entry_is_dir := true |}]
  |}.

End MoreSamples.

(* ================================================================== *)
(** * Overlaps of patterns, and counting *)
(* ================================================================== *)

Module Overlap.

(** [compat a b]: [a] and [b] agree as far as both go, so that one may lie
    over the start of the other. *)
Fixpoint compat (a b : pystr) : bool :=
  match a, b with
  | x :: a', y :: b' => N.eqb x y && compat a' b'
  | _, _ => true
  end.

(** No occurrence of [p] can start inside [w], whatever follows [w]. *)
Definition inert_in (p w : pystr) : bool :=
  forallb (fun i => negb (compat p (skipn i w))) (seq 0 (List.length w)).

(** Every tail of [x] that may lie over the start of [a] lies over the
    start of [b] in full. *)
Definition carries (x a b : pystr) : bool :=
  forallb (fun k => implb (compat (skipn k x) a) (startswith b (skipn k x)))
          (seq 0 (List.length x)).

(** No proper tail of [p] may lie over the start of [w]. *)
Definition no_overhang (p w : pystr) : bool :=
  forallb (fun k => negb (compat (skipn (S k) p) w))
          (seq 0 (List.length p - 1)).

(** The number of positions of [s] at which [p] occurs. *)
Fixpoint occurrences (p s : pystr) : nat :=
  (if startswith s p then 1 else 0) +
  match s with
  | [] => 0
  | _ :: s' => occurrences p s'
  end.

End Overlap.

(* ================================================================== *)
(** * Sample inputs *)
(* ================================================================== *)

Module Samples.
Import Patcher Runner.

Definition types_py : pystr := py "site-packages/wasm/types.py".

(** A module that imports [collections] twice and uses the deprecated
    reference. *)
Definition legacy_text : pystr :=
  py "import collections" ++ NL
  ++ py "import os" ++ NL
  ++ py "import collections" ++ NL
  ++ py "f = collections.Callable" ++ NL.

(** A module with a [from collections.abc import] and a deprecated
    reference. *)
Definition hinted_text : pystr :=
  py "from collections.abc import Callable" ++ NL
  ++ py "g = collections.Callable" ++ NL.

Definition token_args : args :=
  {| contract_path := py "contracts/Token.sol";
     contract := py "Token";
     timeout := 300 |}.

Definition remappings_txt : list pystr :=
  [py "# remappings" ++ NL;
   NL;
   py "@oz/=node_modules/@oz/" ++ NL;
   py "  ds-test/=lib/ds-test/src/  " ++ NL;
   py "@oz/=node_modules/@oz/" ++ NL].

Definition root_listing : list dir_entry :=
  [{| entry_name := py "mcore_a1"; entry_is_dir := true |};
   {| entry_name := py "contracts"; entry_is_dir := true |};
   {| entry_name := py "mcore_b2"; entry_is_dir := true |}].

(** A configured project in which the child behaves as [c]. *)
Definition project (c : child_behaviour) : world :=
  {| project_root := [py "srv"; py "repo"];
     remappings_exists := true;
     node_modules_exists := true;
     remappings_read := Some remappings_txt;
     stdout_accepts := fun _ => true;
     child := c;
     root_entries := root_listing |}.

(** The same project before [npm ci]. *)
Definition fresh_clone : world :=
  {| project_root := [py "srv"; py "repo"];
     remappings_exists := true;
     node_modules_exists := false;
     remappings_read := Some remappings_txt;
     stdout_accepts := fun _ => true;
     child := Terminates 0;
     root_entries := [] |}.

(** Renderings used to run the samples: a list in brackets without
    quoting, and the empty text for an exception. *)
Definition plain_list (l : list pystr) : pystr :=
  py "[" ++ str_join (py ", ") l ++ py "]".
Definition no_text (e : exn) : pystr := [].

End Samples.

(* ================================================================== *)
(** * Sample terminals *)
(* ================================================================== *)

Module Terminals.
Import Runner Samples.

(** Standard outputs: one that only takes ASCII, and one in UTF-8,
    which takes everything but lone surrogates. *)
Definition ascii_terminal (text : pystr) : bool :=
  forallb (fun c => N.ltb c 128) text.
Definition utf8_terminal (text : pystr) : bool :=
  forallb (fun c => negb (N.leb 55296 c && N.leb c 57343)) text.

(** The sample project on an ASCII terminal. *)
Definition ascii_project (c : child_behaviour) : world :=
  {| project_root := [py "srv"; py "repo"];
     remappings_exists := true;
     node_modules_exists := true;
     remappings_read := Some remappings_txt;
     stdout_accepts := ascii_terminal;
     child := c;
     root_entries := root_listing |}.

(** A project on a UTF-8 terminal, with a result directory whose name
    holds a byte that is not UTF-8 (read by Python as a lone surrogate). *)
Definition odd_listing : list dir_entry :=
  [{| entry_name := py "mcore_a1"; entry_is_dir := true |};
   {| entry_name := py "mcore_" ++ [56575%N]; entry_is_dir := true |};
   {| entry_name := py "mcore_b2"; entry_is_dir := true |}].

Definition odd_project (c : child_behaviour) : world :=
  {| project_root := [py "srv"; py "repo"];
     remappings_exists := true;
     node_modules_exists := true;
     remappings_read := Some remappings_txt;
     stdout_accepts := utf8_terminal;
     child := c;
     root_entries := odd_listing |}.

End Terminals.

(* ================================================================== *)
(** * The builtins on examples *)
(* ================================================================== *)


Example str_replace_ex :
  str_replace (py "ab") (py "xyz") (py "cababbab") = py "cxyzxyzbxyz".
Proof. reflexivity. Qed.

Example str_split_ex :
  str_split (py ",") (py "a,,b,") = [py "a"; []; py "b"; []].
Proof. reflexivity. Qed.

Example str_of_int_ex :
  str_of_int 0 = py "0" /\ str_of_int (-9) = py "-9" /\ str_of_int 124 = py "124".
Proof. repeat split. Qed.

Example strip_ex : strip (py "  a b ") = py "a b".
Proof. reflexivity. Qed.

(* ================================================================== *)
(** * Facts about the string builtins *)
(* ================================================================== *)

Module StrFacts.
Import Overlap.

Lemma startswith_nil : forall s, startswith s [] = true.
Proof. destruct s; reflexivity. Qed.

Lemma startswith_app : forall p t, startswith (p ++ t) p = true.
Proof.
  induction p as [|a p IH]; intro t; simpl.
  - reflexivity.
  - rewrite N.eqb_refl. apply IH.
Qed.

Lemma startswith_inv :
  forall p s, startswith s p = true -> s = p ++ skipn (List.length p) s.
Proof.
  induction p as [|a p IH]; intros s H.
  - reflexivity.
  - destruct s as [|b s]; simpl in H; [discriminate|].
    apply andb_prop in H as [H1 H2].
    apply N.eqb_eq in H1; subst b. simpl. f_equal. now apply IH.
Qed.

Lemma startswith_app_l :
  forall x a t, startswith a x = true -> startswith (a ++ t) x = true.
Proof.
  induction x as [|c x IH]; intros a t H.
  - reflexivity.
  - destruct a as [|d a]; simpl in *; [discriminate|].
    apply andb_prop in H as [H1 H2]. rewrite H1. simpl. now apply IH.
Qed.

Lemma startswith_split :
  forall u s x,
    startswith (u ++ s) x =
    startswith u (firstn (List.length u) x)
    && startswith s (skipn (List.length u) x).
Proof.
  induction u as [|a u IH]; intros s x.
  - reflexivity.
  - destruct x as [|b x]; simpl.
    + reflexivity.
    + rewrite IH. now rewrite andb_assoc.
Qed.

Lemma startswith_long :
  forall u s x, List.length x <= List.length u ->
    startswith (u ++ s) x = startswith u x.
Proof.
  intros u s x H. rewrite startswith_split.
  rewrite firstn_all2 by assumption.
  rewrite skipn_all2 by assumption.
  rewrite startswith_nil. apply andb_true_r.
Qed.

Lemma compat_of_startswith :
  forall x a t, startswith (a ++ t) x = true -> compat x a = true.
Proof.
  induction x as [|c x IH]; intros a t H.
  - reflexivity.
  - destruct a as [|d a]; [reflexivity|].
    simpl in *. apply andb_prop in H as [H1 H2].
    rewrite H1. simpl. now apply IH with t.
Qed.

(** What lies over the start of [a] lies over the start of [b]. *)
Lemma startswith_transfer :
  forall x a b ta tb,
    (compat x a = true -> startswith b x = true) ->
    startswith (a ++ ta) x = true -> startswith (b ++ tb) x = true.
Proof.
  intros x a b ta tb H Ha.
  apply startswith_app_l, H. now apply compat_of_startswith with ta.
Qed.

Lemma inert_in_spec :
  forall p w, inert_in p w = true ->
    forall i, i < List.length w -> compat p (skipn i w) = false.
Proof.
  intros p w H i Hi. unfold inert_in in H.
  rewrite forallb_forall in H.
  specialize (H i). apply negb_true_iff, H, in_seq. lia.
Qed.

Lemma carries_spec :
  forall x a b, carries x a b = true ->
    forall k, compat (skipn k x) a = true -> startswith b (skipn k x) = true.
Proof.
  intros x a b H k Hk.
  destruct (Nat.lt_ge_cases k (List.length x)) as [Hlt|Hge].
  - unfold carries in H. rewrite forallb_forall in H.
    specialize (H k). rewrite Hk in H. apply H, in_seq. lia.
  - rewrite skipn_all2 by assumption. apply startswith_nil.
Qed.

Lemma no_overhang_spec :
  forall p w, no_overhang p w = true ->
    forall k, 1 <= k < List.length p -> compat (skipn k p) w = false.
Proof.
  intros p w H k Hk. unfold no_overhang in H.
  rewrite forallb_forall in H.
  destruct k as [|k]; [lia|].
  apply negb_true_iff, (H k), in_seq. lia.
Qed.

(** ** Membership *)

Lemma str_in_cons :
  forall p c s, str_in p s = true -> str_in p (c :: s) = true.
Proof. intros p c s H. simpl. rewrite H. apply orb_true_r. Qed.

Lemma str_in_app_r :
  forall p a b, str_in p b = true -> str_in p (a ++ b) = true.
Proof.
  induction a as [|c a IH]; intros b H; [assumption|].
  simpl app. apply str_in_cons. now apply IH.
Qed.

Lemma str_in_startswith :
  forall p s, startswith s p = true -> str_in p s = true.
Proof. intros p s H. destruct s; simpl in *; now rewrite H. Qed.

Lemma str_in_iff :
  forall p s, str_in p s = true <-> exists a b, s = a ++ p ++ b.
Proof.
  intros p s. split.
  - induction s as [|c s IH]; intro H; simpl in H.
    + rewrite orb_false_r in H. apply startswith_inv in H.
      exists [], (skipn (List.length p) []). exact H.
    + apply orb_prop in H as [H|H].
      * apply startswith_inv in H.
        exists [], (skipn (List.length p) (c :: s)). exact H.
      * destruct (IH H) as (a & b & ->). now exists (c :: a), b.
  - intros (a & b & ->). apply str_in_app_r, str_in_startswith, startswith_app.
Qed.

Lemma str_in_app_l :
  forall p a b, str_in p a = true -> str_in p (a ++ b) = true.
Proof.
  intros p a b H. apply str_in_iff in H as (u & v & ->).
  apply str_in_iff. exists u, (v ++ b). now rewrite <- !app_assoc.
Qed.

Lemma str_in_trans :
  forall a b c, str_in a b = true -> str_in b c = true -> str_in a c = true.
Proof.
  intros a b c Hab Hbc.
  apply str_in_iff in Hab as (u & v & ->).
  apply str_in_iff in Hbc as (u' & v' & ->).
  apply str_in_iff. exists (u' ++ u), (v ++ v').
  now rewrite <- !app_assoc.
Qed.

(** Nothing starts inside an inert stretch. *)
Lemma str_in_app_inert :
  forall p w b, inert_in p w = true -> str_in p (w ++ b) = str_in p b.
Proof.
  intros p w b H. pose proof (inert_in_spec _ _ H) as Hs. clear H.
  induction w as [|c w IH]; [reflexivity|].
  change ((c :: w) ++ b) with (c :: (w ++ b)).
  change (str_in p (c :: w ++ b))
    with (startswith (c :: w ++ b) p || str_in p (w ++ b)).
  rewrite IH.
  - destruct (startswith (c :: w ++ b) p) eqn:E; [|reflexivity].
    apply (compat_of_startswith p (c :: w) b) in E.
    assert (H0 : compat p (skipn 0 (c :: w)) = false)
      by (apply Hs; simpl; lia).
    simpl skipn in H0. congruence.
  - intros i Hi. apply (Hs (S i)). simpl. lia.
Qed.

Lemma str_in_join :
  forall sep x l, In x l -> str_in x (str_join sep l) = true.
Proof.
  intros sep x l. induction l as [|y l IH]; intro H; [destruct H|].
  destruct l as [|z l].
  - destruct H as [->|[]]. simpl.
    apply str_in_startswith.
    rewrite <- (app_nil_r x) at 1. apply startswith_app.
  - change (str_join sep (y :: z :: l))
      with (y ++ sep ++ str_join sep (z :: l)).
    destruct H as [->|H].
    + apply str_in_startswith, startswith_app.
    + now apply str_in_app_r, str_in_app_r, IH.
Qed.

End StrFacts.

(* ================================================================== *)
(** * Facts about [str.replace] and [str.split] *)
(* ================================================================== *)

Module ScanFacts.
Import Overlap StrFacts.

Section Scan.

Variables old new : pystr.
Hypothesis old_nonempty : old <> [].

Lemma skipn_shorter :
  forall (c : char) (s : pystr),
    List.length (skipn (List.length old) (c :: s)) <= List.length s.
Proof.
  intros c s. rewrite length_skipn.
  assert (List.length old <> 0)
    by (intro E; apply length_zero_iff_nil in E; contradiction).
  cbn [List.length]. lia.
Qed.

(** More fuel than the length of the text changes nothing. *)
Lemma replace_scan_fuel :
  forall f1 f2 s,
    List.length s <= f1 -> List.length s <= f2 ->
    replace_scan f1 old new s = replace_scan f2 old new s.
Proof.
  induction f1 as [|f1 IH]; intros f2 s H1 H2.
  - destruct s; [|simpl in H1; lia]. destruct f2; reflexivity.
  - destruct f2 as [|f2].
    + destruct s; [reflexivity|simpl in H2; lia].
    + destruct s as [|c s]; [reflexivity|].
      simpl in H1, H2. cbn [replace_scan].
      destruct (startswith (c :: s) old).
      * f_equal. apply IH; etransitivity; try apply skipn_shorter; lia.
      * f_equal. apply IH; lia.
Qed.

Lemma split_scan_fuel :
  forall f1 f2 s,
    List.length s <= f1 -> List.length s <= f2 ->
    split_scan f1 old s = split_scan f2 old s.
Proof.
  induction f1 as [|f1 IH]; intros f2 s H1 H2.
  - destruct s; [|simpl in H1; lia]. destruct f2; reflexivity.
  - destruct f2 as [|f2].
    + destruct s; [reflexivity|simpl in H2; lia].
    + destruct s as [|c s]; [reflexivity|].
      simpl in H1, H2. cbn [split_scan].
      destruct (startswith (c :: s) old).
      * f_equal. apply IH; etransitivity; try apply skipn_shorter; lia.
      * rewrite (IH f2 s) by lia. reflexivity.
Qed.

Lemma str_replace_unfold :
  forall s, str_replace old new s = replace_scan (List.length s) old new s.
Proof. intro s. unfold str_replace. destruct old; [contradiction|reflexivity]. Qed.

Lemma str_split_unfold :
  forall s, str_split old s = split_scan (List.length s) old s.
Proof. intro s. unfold str_split. destruct old; [contradiction|reflexivity]. Qed.

Lemma match_shape :
  forall rest, exists c s,
    old ++ rest = c :: s /\ skipn (List.length old) (c :: s) = rest
    /\ List.length rest <= List.length s.
Proof.
  intro rest. destruct (old ++ rest) as [|c s] eqn:E.
  - apply app_eq_nil in E as [E _]. contradiction.
  - exists c, s. split; [reflexivity|].
    assert (Hk : skipn (List.length old) (c :: s) = rest).
    { rewrite <- E, skipn_app, skipn_all, Nat.sub_diag. reflexivity. }
    split; [exact Hk|]. rewrite <- Hk at 1. apply skipn_shorter.
Qed.

Lemma str_replace_nil : str_replace old new [] = [].
Proof. rewrite str_replace_unfold. reflexivity. Qed.

Lemma str_replace_skip :
  forall c s, startswith (c :: s) old = false ->
    str_replace old new (c :: s) = c :: str_replace old new s.
Proof.
  intros c s H. rewrite !str_replace_unfold.
  cbn [List.length replace_scan]. rewrite H. reflexivity.
Qed.

Lemma str_replace_match :
  forall rest, str_replace old new (old ++ rest) = new ++ str_replace old new rest.
Proof.
  intro rest. rewrite !str_replace_unfold.
  pose proof (startswith_app old rest) as Hsw.
  destruct (match_shape rest) as (c & s & E & Hk & Hlen).
  rewrite E in *. cbn [List.length replace_scan]. rewrite Hsw, Hk.
  f_equal. apply replace_scan_fuel; lia.
Qed.

Lemma str_split_nil : str_split old [] = [[]].
Proof. rewrite str_split_unfold. reflexivity. Qed.

Lemma str_split_skip :
  forall c s, startswith (c :: s) old = false ->
    str_split old (c :: s) =
    match str_split old s with
    | [] => [[c]]
    | h :: t => (c :: h) :: t
    end.
Proof.
  intros c s H. rewrite !str_split_unfold.
  cbn [List.length split_scan]. rewrite H. reflexivity.
Qed.

Lemma str_split_match :
  forall rest, str_split old (old ++ rest) = [] :: str_split old rest.
Proof.
  intro rest. rewrite !str_split_unfold.
  pose proof (startswith_app old rest) as Hsw.
  destruct (match_shape rest) as (c & s & E & Hk & Hlen).
  rewrite E in *. cbn [List.length split_scan]. rewrite Hsw, Hk.
  f_equal. apply split_scan_fuel; lia.
Qed.

(** Induction along the scan: the text is empty, starts with the pattern,
    or starts with a character the scan steps over. *)
Lemma scan_ind :
  forall P : pystr -> Prop,
    P [] ->
    (forall rest, P rest -> P (old ++ rest)) ->
    (forall c s, startswith (c :: s) old = false -> P s -> P (c :: s)) ->
    forall s, P s.
Proof.
  intros P Hnil Hmatch Hskip s.
  assert (H : forall n s, List.length s <= n -> P s).
  { clear s. induction n as [|n IH]; intros s Hn.
    - destruct s; [exact Hnil|simpl in Hn; lia].
    - destruct s as [|c s]; [exact Hnil|].
      destruct (startswith (c :: s) old) eqn:E.
      + rewrite (startswith_inv _ _ E). apply Hmatch, IH.
        pose proof (skipn_shorter c s). simpl in Hn. lia.
      + apply Hskip; [exact E|]. apply IH. simpl in Hn. lia. }
  apply (H (List.length s)). lia.
Qed.

(** A text without the pattern is left as it is. *)
Lemma str_replace_absent :
  forall s, str_in old s = false -> str_replace old new s = s.
Proof.
  intro s. pattern s. apply scan_ind; clear s.
  - intros _. apply str_replace_nil.
  - intros rest _ H. rewrite str_in_startswith in H; [discriminate|].
    apply startswith_app.
  - intros c s Hsw IH H. simpl in H. apply orb_false_elim in H as [_ H].
    rewrite str_replace_skip by assumption. f_equal. now apply IH.
Qed.

Lemma app_cons_mid :
  forall (u : pystr) c t, u ++ c :: t = (u ++ [c]) ++ t.
Proof. intros. now rewrite <- app_assoc. Qed.

(** What starts before the scan position and reaches into the text still
    does so after the replacement, when [new] carries it as [old] did. *)
Lemma startswith_replace_fwd :
  forall x, carries x old new = true ->
    forall s u, startswith (u ++ s) x = true ->
      startswith (u ++ str_replace old new s) x = true.
Proof.
  intros x HC s. pattern s. apply scan_ind; clear s.
  - intros u H. now rewrite str_replace_nil.
  - intros rest _ u H. rewrite str_replace_match.
    rewrite startswith_split in *. apply andb_prop in H as [H1 H2].
    rewrite H1. simpl.
    eapply startswith_transfer; [|exact H2]. now apply carries_spec.
  - intros c s Hsw IH u H. rewrite str_replace_skip by assumption.
    rewrite app_cons_mid in *. now apply IH.
Qed.

(** Conversely, when [old] carries what [new] does. *)
Lemma startswith_replace_back :
  forall y, carries y new old = true ->
    forall s u, startswith (u ++ str_replace old new s) y = true ->
      startswith (u ++ s) y = true.
Proof.
  intros y HC s. pattern s. apply scan_ind; clear s.
  - intros u H. now rewrite str_replace_nil in H.
  - intros rest _ u H. rewrite str_replace_match in H.
    rewrite startswith_split in *. apply andb_prop in H as [H1 H2].
    rewrite H1. simpl.
    eapply startswith_transfer; [|exact H2]. now apply carries_spec.
  - intros c s Hsw IH u H. rewrite str_replace_skip in H by assumption.
    rewrite app_cons_mid in *. now apply IH.
Qed.

(** After the replacement no occurrence of [old] is left. *)
Lemma replace_removes :
  inert_in old new = true -> carries old new old = true ->
  forall s, str_in old (str_replace old new s) = false.
Proof.
  intros HI HC s. pattern s. apply scan_ind; clear s.
  - rewrite str_replace_nil. simpl. rewrite orb_false_r.
    destruct old; [contradiction|reflexivity].
  - intros rest IH. rewrite str_replace_match.
    now rewrite str_in_app_inert.
  - intros c s Hsw IH. rewrite str_replace_skip by assumption.
    simpl. rewrite IH, orb_false_r.
    destruct (startswith (c :: str_replace old new s) old) eqn:E;
      [|reflexivity].
    apply (startswith_replace_back old HC s [c]) in E.
    simpl app in E. congruence.
Qed.

(** An occurrence of [x] survives the replacement. *)
Lemma replace_preserves :
  forall x, inert_in x old = true -> carries x old new = true ->
    forall s, str_in x s = true -> str_in x (str_replace old new s) = true.
Proof.
  intros x HI HC s. pattern s. apply scan_ind; clear s.
  - intro H. now rewrite str_replace_nil.
  - intros rest IH H. rewrite str_replace_match.
    rewrite str_in_app_inert in H by assumption.
    now apply str_in_app_r, IH.
  - intros c s Hsw IH H. rewrite str_replace_skip by assumption.
    simpl in H. apply orb_prop in H as [H|H].
    + apply str_in_startswith.
      now apply (startswith_replace_fwd x HC s [c]).
    + now apply str_in_cons, IH.
Qed.

(** The replacement creates no occurrence of [y]. *)
Lemma replace_creates_none :
  forall y, inert_in y new = true -> carries y new old = true ->
    forall s, str_in y s = false -> str_in y (str_replace old new s) = false.
Proof.
  intros y HI HC s. pattern s. apply scan_ind; clear s.
  - intro H. now rewrite str_replace_nil.
  - intros rest IH H. rewrite str_replace_match.
    rewrite str_in_app_inert by assumption. apply IH.
    destruct (str_in y rest) eqn:E; [|reflexivity].
    now rewrite (str_in_app_r y old rest E) in H.
  - intros c s Hsw IH H. rewrite str_replace_skip by assumption.
    simpl in H. apply orb_false_elim in H as [H1 H2].
    simpl. rewrite (IH H2), orb_false_r.
    destruct (startswith (c :: str_replace old new s) y) eqn:E;
      [|reflexivity].
    apply (startswith_replace_back y HC s [c]) in E.
    simpl app in E. congruence.
Qed.

(** Where [old] occurred, [new] occurs afterwards. *)
Lemma replace_inserts :
  forall s, str_in old s = true -> str_in new (str_replace old new s) = true.
Proof.
  intro s. pattern s. apply scan_ind; clear s.
  - simpl. rewrite orb_false_r. destruct old; [contradiction|discriminate].
  - intros rest _ _. rewrite str_replace_match.
    apply str_in_startswith, startswith_app.
  - intros c s Hsw IH H. rewrite str_replace_skip by assumption.
    simpl in H. rewrite Hsw in H. now apply str_in_cons, IH.
Qed.

(** The scan steps over a stretch in which no occurrence can start. *)
Lemma replace_inert_prefix :
  forall w b, inert_in old w = true ->
    str_replace old new (w ++ b) = w ++ str_replace old new b.
Proof.
  intros w b H. pose proof (inert_in_spec _ _ H) as Hs. clear H.
  induction w as [|c w IH]; [reflexivity|].
  simpl app. rewrite str_replace_skip.
  - f_equal. apply IH. intros i Hi. apply (Hs (S i)). simpl. lia.
  - destruct (startswith (c :: w ++ b) old) eqn:E; [|reflexivity].
    apply (compat_of_startswith old (c :: w) b) in E.
    assert (H0 : compat old (skipn 0 (c :: w)) = false)
      by (apply Hs; simpl; lia).
    simpl skipn in H0. congruence.
Qed.

(** The replacement works on each side of such a stretch separately. *)
Lemma replace_around_inert :
  forall w, inert_in old w = true -> no_overhang old w = true ->
    forall a b,
      str_replace old new (a ++ w ++ b) =
      str_replace old new a ++ w ++ str_replace old new b.
Proof.
  intros w HI HO a b. pattern a. apply scan_ind; clear a.
  - rewrite str_replace_nil. simpl. now apply replace_inert_prefix.
  - intros rest IH. rewrite <- app_assoc, !str_replace_match, IH.
    now rewrite app_assoc.
  - intros c s Hsw IH. simpl app.
    rewrite !str_replace_skip, IH; [reflexivity|assumption|].
    destruct (startswith (c :: s ++ w ++ b) old) eqn:E; [|reflexivity].
    change (c :: s ++ w ++ b) with ((c :: s) ++ w ++ b) in E.
    rewrite startswith_split in E. apply andb_prop in E as [E1 E2].
    destruct (Nat.lt_ge_cases (List.length (c :: s)) (List.length old))
      as [Hlt|Hge].
    + apply compat_of_startswith in E2.
      rewrite (no_overhang_spec _ _ HO) in E2; [discriminate|].
      simpl in *. lia.
    + rewrite firstn_all2 in E1 by assumption. congruence.
Qed.

(** ** Splitting and joining *)

Lemma str_split_nonempty : forall s, str_split old s <> [].
Proof.
  intro s. pattern s. apply scan_ind; clear s.
  - now rewrite str_split_nil.
  - intros rest _. now rewrite str_split_match.
  - intros c s Hsw _. rewrite str_split_skip by assumption.
    now destruct (str_split old s).
Qed.

Lemma str_join_cons :
  forall sep x l, l <> [] -> str_join sep (x :: l) = x ++ sep ++ str_join sep l.
Proof. intros sep x [|y l] H; [contradiction|reflexivity]. Qed.

Lemma str_join_push :
  forall sep (c : char) h t,
    str_join sep ((c :: h) :: t) = c :: str_join sep (h :: t).
Proof. intros sep c h [|y t]; reflexivity. Qed.

(** [sep.join(s.split(sep)) == s] *)
Lemma join_split : forall s, str_join old (str_split old s) = s.
Proof.
  intro s. pattern s. apply scan_ind; clear s.
  - now rewrite str_split_nil.
  - intros rest IH. rewrite str_split_match.
    rewrite str_join_cons by apply str_split_nonempty. now rewrite IH.
  - intros c s Hsw IH. rewrite str_split_skip by assumption.
    pose proof (str_split_nonempty s) as Hne.
    destruct (str_split old s) as [|h t]; [contradiction|].
    rewrite str_join_push. f_equal. exact IH.
Qed.

(** [s.replace(old, new) == new.join(s.split(old))] *)
Lemma replace_join_split :
  forall s, str_replace old new s = str_join new (str_split old s).
Proof.
  intro s. pattern s. apply scan_ind; clear s.
  - now rewrite str_replace_nil, str_split_nil.
  - intros rest IH. rewrite str_replace_match, str_split_match.
    rewrite str_join_cons by apply str_split_nonempty. now rewrite IH.
  - intros c s Hsw IH.
    rewrite str_replace_skip, str_split_skip by assumption.
    pose proof (str_split_nonempty s) as Hne.
    destruct (str_split old s) as [|h t]; [contradiction|].
    rewrite str_join_push. f_equal. exact IH.
Qed.

(** No piece of the split contains the separator. *)
Lemma split_pieces_free :
  forall s p, In p (str_split old s) -> str_in old p = false.
Proof.
  assert (Hnil : str_in old [] = false).
  { simpl. rewrite orb_false_r. destruct old; [contradiction|reflexivity]. }
  intro s. pattern s. apply scan_ind; clear s.
  - intros p H. rewrite str_split_nil in H. destruct H as [<-|[]]. exact Hnil.
  - intros rest IH p H. rewrite str_split_match in H.
    destruct H as [<-|H]; [exact Hnil|now apply IH].
  - intros c s Hsw IH p H. rewrite str_split_skip in H by assumption.
    pose proof (str_split_nonempty s) as Hne.
    pose proof (join_split s) as Hj.
    destruct (str_split old s) as [|h t]; [contradiction|].
    destruct H as [<-|H]; [|apply IH; now right].
    simpl. rewrite (IH h) by now left. rewrite orb_false_r.
    destruct (startswith (c :: h) old) eqn:E; [|reflexivity].
    assert (Hs : exists r, c :: s = (c :: h) ++ r).
    { destruct t as [|y t].
      - exists []. simpl in Hj. rewrite app_nil_r. now rewrite Hj.
      - exists (old ++ str_join old (y :: t)).
        rewrite <- Hj. reflexivity. }
    destruct Hs as (r & Hs). rewrite Hs in Hsw.
    now rewrite (startswith_app_l _ _ r E) in Hsw.
Qed.

(** ** Counting occurrences *)

Lemma occurrences_zero :
  forall p s, str_in p s = false -> occurrences p s = 0.
Proof.
  intros p. induction s as [|c s IH]; simpl; intro H.
  - rewrite orb_false_r in H. now rewrite H.
  - apply orb_false_elim in H as [H1 H2]. now rewrite H1, IH.
Qed.

Lemma occurrences_app_inert :
  forall p w b, inert_in p w = true ->
    occurrences p (w ++ b) = occurrences p b.
Proof.
  intros p w b H. pose proof (inert_in_spec _ _ H) as Hs. clear H.
  induction w as [|c w IH]; [reflexivity|].
  change ((c :: w) ++ b) with (c :: (w ++ b)).
  change (occurrences p (c :: w ++ b))
    with ((if startswith (c :: w ++ b) p then 1 else 0)
          + occurrences p (w ++ b)).
  rewrite IH.
  - destruct (startswith (c :: w ++ b) p) eqn:E; [|reflexivity].
    apply (compat_of_startswith p (c :: w) b) in E.
    assert (H0 : compat p (skipn 0 (c :: w)) = false)
      by (apply Hs; simpl; lia).
    simpl skipn in H0. congruence.
  - intros i Hi. apply (Hs (S i)). simpl. lia.
Qed.

(** An occurrence of [p] that starts in [a] ends in [a], when no proper
    tail of [p] may lie over the start of [w]. *)
Lemma occurrences_before_inert :
  forall p w, no_overhang p w = true -> p <> [] ->
    forall a b,
      occurrences p (a ++ w ++ b) = occurrences p a + occurrences p (w ++ b).
Proof.
  intros p w HO Hp a b. induction a as [|c a IH].
  - destruct p; [contradiction|reflexivity].
  - change ((c :: a) ++ w ++ b) with (c :: (a ++ w ++ b)).
    cbn [occurrences]. rewrite IH, Nat.add_assoc. f_equal. f_equal.
    change (c :: a ++ w ++ b) with ((c :: a) ++ w ++ b).
    rewrite startswith_split.
    destruct (Nat.lt_ge_cases (List.length (c :: a)) (List.length p))
      as [Hlt|Hge].
    + assert (E : startswith (w ++ b) (skipn (List.length (c :: a)) p)
                  = false).
      { destruct (startswith (w ++ b) _) eqn:E; [|reflexivity].
        apply compat_of_startswith in E.
        rewrite (no_overhang_spec _ _ HO) in E; [discriminate|].
        simpl in *. lia. }
      rewrite E, andb_false_r.
      assert (E' : startswith (c :: a) p = false).
      { destruct (startswith (c :: a) p) eqn:E'; [|reflexivity].
        apply startswith_inv in E'.
        apply (f_equal (@List.length _)) in E'.
        rewrite length_app in E'. lia. }
      now rewrite E'.
    + rewrite firstn_all2, skipn_all2 by assumption.
      now rewrite startswith_nil, andb_true_r.
Qed.

(** For a separator that cannot overlap itself, the split has one piece
    more than the separator has occurrences. *)
Lemma occurrences_split :
  inert_in old (tl old) = true ->
  forall s, List.length (str_split old s) = S (occurrences old s).
Proof.
  intros HI s. pattern s. apply scan_ind; clear s.
  - rewrite str_split_nil. simpl.
    destruct old; [contradiction|reflexivity].
  - intros rest IH. rewrite str_split_match. simpl List.length. rewrite IH.
    f_equal. pose proof (startswith_app old rest) as Hsw.
    destruct old as [|o os] eqn:E; [contradiction|].
    simpl app in *. cbn [occurrences]. rewrite Hsw.
    simpl tl in HI. now rewrite occurrences_app_inert.
  - intros c s Hsw IH. rewrite str_split_skip by assumption.
    cbn [occurrences]. rewrite Hsw. simpl. rewrite <- IH.
    now destruct (str_split old s).
Qed.

(** The replacement goes through a join on a separator that no occurrence
    of [old] can touch. *)
Lemma replace_join_inert :
  forall w, inert_in old w = true -> no_overhang old w = true ->
    forall parts,
      str_replace old new (str_join w parts) =
      str_join w (map (str_replace old new) parts).
Proof.
  intros w HI HO parts. induction parts as [|x parts IH].
  - apply str_replace_nil.
  - destruct parts as [|y parts]; [reflexivity|].
    change (str_join w (x :: y :: parts))
      with (x ++ w ++ str_join w (y :: parts)).
    rewrite replace_around_inert by assumption. now rewrite IH.
Qed.

(** A pattern that cannot overlap itself, at the head of a text. *)
Lemma occurrences_self :
  inert_in old (tl old) = true ->
  forall b, occurrences old (old ++ b) = S (occurrences old b).
Proof.
  intros HI b. pose proof (startswith_app old b) as Hsw.
  destruct old as [|o os] eqn:E; [contradiction|].
  simpl app in *. cbn [occurrences]. rewrite Hsw.
  simpl tl in HI. now rewrite occurrences_app_inert.
Qed.

End Scan.

End ScanFacts.

(* ================================================================== *)
(** * The patcher *)
(* ================================================================== *)

Module PatcherFacts.
Import Overlap StrFacts ScanFacts Patcher.

Lemma DEPRECATED_nonempty : DEPRECATED <> [].
Proof. discriminate. Qed.

Lemma IMPORT_LINE_nonempty : IMPORT_LINE <> [].
Proof. discriminate. Qed.

(** The replacement of line 58 leaves no deprecated reference. *)
Lemma no_deprecated_left :
  forall s, str_in DEPRECATED (str_replace DEPRECATED UPDATED s) = false.
Proof.
  apply replace_removes;
    [exact DEPRECATED_nonempty | vm_compute; reflexivity ..].
Qed.

(** It keeps an [import collections.abc] that is there, *)
Lemma import_abc_kept :
  forall s, str_in IMPORT_ABC s = true ->
    str_in IMPORT_ABC (str_replace DEPRECATED UPDATED s) = true.
Proof.
  apply replace_preserves;
    [exact DEPRECATED_nonempty | vm_compute; reflexivity ..].
Qed.

(** and an [import collections], *)
Lemma import_collections_kept :
  forall s, str_in IMPORT_COLLECTIONS s = true ->
    str_in IMPORT_COLLECTIONS (str_replace DEPRECATED UPDATED s) = true.
Proof.
  apply replace_preserves;
    [exact DEPRECATED_nonempty | vm_compute; reflexivity ..].
Qed.

(** and it makes no new [import collections] line. *)
Lemma import_line_not_made :
  forall s, str_in IMPORT_LINE s = false ->
    str_in IMPORT_LINE (str_replace DEPRECATED UPDATED s) = false.
Proof.
  apply replace_creates_none;
    [exact DEPRECATED_nonempty | vm_compute; reflexivity ..].
Qed.

(** After lines 43-55 the import is there, unless the text only has
    [import collections] in a form line 45 does not match; the text is
    then unchanged. *)
Lemma add_import_cases :
  forall c,
    str_in IMPORT_ABC (add_import c) = true \/
    (add_import c = c /\ str_in IMPORT_ABC c = false
     /\ str_in IMPORT_COLLECTIONS c = true /\ str_in IMPORT_LINE c = false).
Proof.
  intro c. unfold add_import.
  destruct (str_in IMPORT_ABC c) eqn:E1; cbn [negb].
  - now left.
  - destruct (str_in IMPORT_COLLECTIONS c) eqn:E2.
    + destruct (str_in IMPORT_LINE c) eqn:E3.
      * left. apply str_in_trans with IMPORT_LINES; [vm_compute; reflexivity|].
        now apply replace_inserts; [exact IMPORT_LINE_nonempty|].
      * right. rewrite str_replace_absent;
          [auto | exact IMPORT_LINE_nonempty | exact E3].
    + left. apply str_in_join. unfold list_insert.
      apply in_or_app. right. now left.
Qed.

(** The transformation changes nothing in its own output. *)
Lemma transform_fixed : forall c, transform (transform c) = transform c.
Proof.
  intro c.
  assert (Hadd : add_import (transform c) = transform c).
  { unfold transform at 1 2.
    destruct (add_import_cases c) as [H|(Hc & H1 & H2 & H3)].
    - apply import_abc_kept in H.
      unfold add_import at 1. now rewrite H.
    - rewrite Hc. apply import_collections_kept in H2.
      apply import_line_not_made in H3.
      unfold add_import.
      destruct (str_in IMPORT_ABC (str_replace DEPRECATED UPDATED c));
        cbn [negb]; [reflexivity|].
      rewrite H2. apply str_replace_absent;
        [exact IMPORT_LINE_nonempty | exact H3]. }
  unfold transform at 1. rewrite Hadd.
  apply str_replace_absent; [exact DEPRECATED_nonempty|].
  apply no_deprecated_left.
Qed.

Lemma patch_file_returns :
  forall file_path content, returned (patch_file file_path content) = true.
Proof.
  intros. unfold patch_file.
  destruct (already_patched content); [reflexivity|].
  destruct (pystr_eq_dec _ _); reflexivity.
Qed.

Lemma patch_file_quiet :
  forall file_path content,
    already_patched content = true \/ transform content = content ->
    written (patch_file file_path content) = None.
Proof.
  intros file_path content H. unfold patch_file.
  destruct (already_patched content); [reflexivity|].
  destruct H as [H|H]; [discriminate|].
  destruct (pystr_eq_dec _ _); [reflexivity|contradiction].
Qed.

(** C5 (idempotence).  Whatever the file holds, every call returns
    success, and a second call on what the first left performs no write
    and leaves the text as it is.  On a text the test of line 35 accepts,
    the first call already prints "File already patched." and writes
    nothing; a write happens exactly when the test fails and the
    transformed text differs from the original, and what is written is
    the transformed text. *)
Theorem patch_file_idempotent :
  forall file_path content,
    let first := patch_file file_path content in
    let content1 := file_after content first in
    let second := patch_file file_path content1 in
    returned first = true /\ returned second = true
    /\ written second = None
    /\ file_after content1 second = content1
    /\ (already_patched content = true ->
        first = {| printed := [py "Patching " ++ file_path ++ py "...";
                               py "File already patched."];
                   written := None; returned := true |})
    /\ (forall w, written first = Some w <->
                  already_patched content = false
                  /\ w = transform content /\ w <> content).
Proof.
  intros file_path content first content1 second.
  assert (Hsecond : written second = None).
  { apply patch_file_quiet. subst second content1 first.
    unfold file_after, patch_file.
    destruct (already_patched content) eqn:E; [now left|].
    destruct (pystr_eq_dec (transform content) content) as [Heq|Hneq];
      cbn [written].
    - now right.
    - right. apply transform_fixed. }
  repeat split.
  - apply patch_file_returns.
  - apply patch_file_returns.
  - exact Hsecond.
  - unfold file_after. now rewrite Hsecond.
  - intro H. subst first. unfold patch_file. now rewrite H.
  - subst first. unfold patch_file in H.
    destruct (already_patched content); [discriminate|reflexivity].
  - subst first. unfold patch_file in H.
    destruct (already_patched content); [discriminate|].
    destruct (pystr_eq_dec _ _); [discriminate|].
    cbn [written] in H. congruence.
  - subst first. unfold patch_file in H.
    destruct (already_patched content); [discriminate|].
    destruct (pystr_eq_dec _ _); [discriminate|].
    cbn [written] in H. congruence.
  - intros (H1 & -> & H3). subst first. unfold patch_file. rewrite H1.
    destruct (pystr_eq_dec _ _); [contradiction|reflexivity].
Qed.

(** ** The inserted import lines *)

Lemma ABC_LINE_nonempty : ABC_LINE <> [].
Proof. discriminate. Qed.

Lemma abc_line_after_lines :
  forall b, occurrences ABC_LINE (IMPORT_LINES ++ b)
            = S (occurrences ABC_LINE b).
Proof.
  intro b. change IMPORT_LINES with (IMPORT_LINE ++ ABC_LINE).
  rewrite <- app_assoc.
  rewrite occurrences_app_inert by (vm_compute; reflexivity).
  apply occurrences_self; [exact ABC_LINE_nonempty|vm_compute; reflexivity].
Qed.

Lemma abc_lines_in_join :
  forall parts, parts <> [] ->
    (forall p, In p parts -> str_in ABC_LINE p = false) ->
    occurrences ABC_LINE (str_join IMPORT_LINES parts)
    = List.length parts - 1.
Proof.
  induction parts as [|x parts IH]; intros Hne Hfree; [contradiction|].
  destruct parts as [|y parts].
  - simpl. apply occurrences_zero, Hfree. now left.
  - change (str_join IMPORT_LINES (x :: y :: parts))
      with (x ++ IMPORT_LINES ++ str_join IMPORT_LINES (y :: parts)).
    rewrite occurrences_before_inert;
      [|vm_compute; reflexivity|exact ABC_LINE_nonempty].
    rewrite abc_line_after_lines, IH; [|discriminate|].
    + rewrite (occurrences_zero ABC_LINE x) by (apply Hfree; now left).
      simpl. lia.
    + intros p Hp. apply Hfree. now right.
Qed.

Lemma abc_line_not_made :
  forall s, str_in ABC_LINE s = false ->
    str_in ABC_LINE (str_replace DEPRECATED UPDATED s) = false.
Proof.
  apply replace_creates_none;
    [exact DEPRECATED_nonempty | vm_compute; reflexivity ..].
Qed.

Lemma str_in_false_sub :
  forall a b c, str_in a b = true -> str_in a c = false -> str_in b c = false.
Proof.
  intros a b c Hab Hac. destruct (str_in b c) eqn:E; [|reflexivity].
  now rewrite (str_in_trans a b c Hab E) in Hac.
Qed.

(** C8.  On a text that line 35 does not take for patched, the text the
    call leaves in the file is the transformed text; it is the text after
    the import step with every occurrence of the deprecated reference
    replaced by the updated one (the pieces between the occurrences are
    joined by the updated reference instead of the deprecated one), and no
    occurrence of the deprecated reference is left in it. *)
Theorem deprecated_all_replaced :
  forall file_path content,
    already_patched content = false ->
    let pieces := str_split DEPRECATED (add_import content) in
    file_after content (patch_file file_path content) = transform content
    /\ add_import content = str_join DEPRECATED pieces
    /\ transform content = str_join UPDATED pieces
    /\ (forall p, In p pieces -> str_in DEPRECATED p = false)
    /\ str_in DEPRECATED (transform content) = false
    /\ occurrences DEPRECATED (transform content) = 0.
Proof.
  intros file_path content H pieces. subst pieces.
  repeat split.
  - unfold file_after, patch_file. rewrite H.
    destruct (pystr_eq_dec _ _) as [E|E]; cbn [written]; congruence.
  - symmetry. apply join_split, DEPRECATED_nonempty.
  - apply replace_join_split, DEPRECATED_nonempty.
  - intros p Hp. eapply split_pieces_free; [exact DEPRECATED_nonempty|exact Hp].
  - apply no_deprecated_left.
  - apply occurrences_zero, no_deprecated_left.
Qed.

(** C9.  A text that contains both ['collections.abc'] and
    ['from collections.abc import'] is reported as already patched: the
    call prints "File already patched.", returns [True], writes nothing,
    and the file keeps its text, deprecated references included. *)
Theorem already_patched_untouched :
  forall file_path content,
    str_in (py "collections.abc") content = true ->
    str_in (py "from collections.abc import") content = true ->
    patch_file file_path content =
      {| printed := [py "Patching " ++ file_path ++ py "...";
                     py "File already patched."];
         written := None; returned := true |}
    /\ file_after content (patch_file file_path content) = content
    /\ occurrences DEPRECATED
         (file_after content (patch_file file_path content))
       = occurrences DEPRECATED content.
Proof.
  intros file_path content H1 H2.
  assert (E : patch_file file_path content =
      {| printed := [py "Patching " ++ file_path ++ py "...";
                     py "File already patched."];
         written := None; returned := true |}).
  { unfold patch_file, already_patched. now rewrite H1, H2. }
  rewrite E. repeat split.
Qed.

(** C10.  In a text without ['import collections.abc'] in which the line
    ['import collections\n'] occurs [n >= 1] times, the import step puts
    the line ['import collections.abc\n'] right after every one of the
    [n] occurrences: the text is its [n + 1] pieces joined by the import
    line, and the result is the same pieces joined by the import line
    followed by the new line.  The transformation then only rewrites the
    pieces, so that its output has [n] of the new lines where the input
    had none.  This output is what [patch_file] leaves in the file when
    the test of line 35 fails. *)
Theorem import_added_after_every_line :
  forall file_path content n,
    str_in IMPORT_ABC content = false ->
    occurrences IMPORT_LINE content = n ->
    1 <= n ->
    let parts := str_split IMPORT_LINE content in
    (already_patched content = false ->
     file_after content (patch_file file_path content) = transform content)
    /\ List.length parts = S n
    /\ content = str_join IMPORT_LINE parts
    /\ add_import content = str_join (IMPORT_LINE ++ IMPORT_ABC ++ NL) parts
    /\ transform content =
       str_join (IMPORT_LINE ++ IMPORT_ABC ++ NL)
                (map (str_replace DEPRECATED UPDATED) parts)
    /\ occurrences (IMPORT_ABC ++ NL) content = 0
    /\ occurrences (IMPORT_ABC ++ NL) (add_import content) = n
    /\ occurrences (IMPORT_ABC ++ NL) (transform content) = n.
Proof.
  intros file_path content n Habc Hn Hpos parts.
  split.
  { intro H. unfold file_after, patch_file. rewrite H.
    destruct (pystr_eq_dec _ _) as [E|E]; cbn [written]; congruence. }
  change (IMPORT_LINE ++ IMPORT_ABC ++ NL) with IMPORT_LINES.
  change (IMPORT_ABC ++ NL) with ABC_LINE.
  assert (Hlen : List.length parts = S n).
  { subst parts n. apply occurrences_split;
      [exact IMPORT_LINE_nonempty|vm_compute; reflexivity]. }
  assert (Hjoin : content = str_join IMPORT_LINE parts).
  { symmetry. apply join_split, IMPORT_LINE_nonempty. }
  assert (Hline : str_in IMPORT_LINE content = true).
  { destruct (str_in IMPORT_LINE content) eqn:E; [reflexivity|].
    apply occurrences_zero in E. lia. }
  assert (Hadd : add_import content = str_join IMPORT_LINES parts).
  { unfold add_import. rewrite Habc. cbn [negb].
    rewrite (str_in_trans IMPORT_COLLECTIONS IMPORT_LINE content);
      [|vm_compute; reflexivity|exact Hline].
    apply replace_join_split, IMPORT_LINE_nonempty. }
  assert (Htr : transform content =
                str_join IMPORT_LINES
                         (map (str_replace DEPRECATED UPDATED) parts)).
  { unfold transform. rewrite Hadd.
    apply replace_join_inert;
      [exact DEPRECATED_nonempty|vm_compute; reflexivity ..]. }
  assert (Hnone : str_in ABC_LINE content = false).
  { apply str_in_false_sub with IMPORT_ABC;
      [vm_compute; reflexivity|exact Habc]. }
  assert (Hfree : forall p, In p parts -> str_in ABC_LINE p = false).
  { intros p Hp. destruct (str_in ABC_LINE p) eqn:E; [|reflexivity].
    assert (Hsub : str_in p content = true)
      by (rewrite Hjoin; now apply str_in_join).
    now rewrite (str_in_trans ABC_LINE p content E Hsub) in Hnone. }
  assert (Hne : parts <> []) by (destruct parts; [discriminate|discriminate]).
  repeat split; try assumption.
  - now apply occurrences_zero.
  - rewrite Hadd, abc_lines_in_join by assumption. lia.
  - rewrite Htr, abc_lines_in_join.
    + rewrite length_map. lia.
    + destruct parts; [contradiction|discriminate].
    + intros p Hp. apply in_map_iff in Hp as (q & <- & Hq).
      apply abc_line_not_made, Hfree, Hq.
Qed.

End PatcherFacts.

(* ================================================================== *)
(** * The runner *)
(* ================================================================== *)

Module RunnerFacts.
Import Overlap StrFacts Runner.

Lemma pystr_eqb_refl : forall a, pystr_eqb a a = true.
Proof.
  intro a. unfold pystr_eqb. now destruct (list_eq_dec N.eq_dec a a).
Qed.

Lemma pystr_eqb_eq : forall a b, pystr_eqb a b = true <-> a = b.
Proof.
  intros a b. unfold pystr_eqb.
  destruct (list_eq_dec N.eq_dec a b); split; congruence.
Qed.

(** A path found under the root is relative to it by its last component. *)
Lemma relative_to_child :
  forall root name, relative_to (root ++ [name]) root = Some [name].
Proof.
  induction root as [|c root IH]; intro name.
  - reflexivity.
  - simpl. now rewrite pystr_eqb_refl.
Qed.

(** ** Runs of [print] *)

Lemma and_then_done : forall s : step, and_then s ([], None) = s.
Proof.
  intros [t [e|]]; cbn [and_then]; [reflexivity|]. now rewrite app_nil_r.
Qed.

Lemma say_all_accepted :
  forall w texts, accepted w texts = true ->
    say_all w texts = (map (Print Stdout) texts, None).
Proof.
  intros w texts. induction texts as [|x texts IH]; intro H; [reflexivity|].
  cbn [accepted forallb] in H. apply andb_prop in H as [H1 H2].
  cbn [say_all]. unfold say. rewrite H1. cbn [and_then].
  rewrite (IH H2). reflexivity.
Qed.

(** A run of [print] calls that is not accepted in full prints the texts
    before the first one refused, and raises on that one. *)
Lemma say_all_refused :
  forall w texts, accepted w texts = false ->
    exists before x after,
      texts = before ++ x :: after
      /\ accepted w before = true /\ stdout_accepts w x = false
      /\ say_all w texts = (map (Print Stdout) before, Some (PrintError x)).
Proof.
  intros w texts. induction texts as [|y texts IH]; intro H; [discriminate|].
  cbn [accepted forallb] in H. cbn [say_all]. unfold say.
  destruct (stdout_accepts w y) eqn:E.
  - cbn [andb] in H. destruct (IH H) as (before & x & after & -> & Hb & Hx & Hs).
    exists (y :: before), x, after. repeat split; try assumption.
    + cbn [accepted forallb]. now rewrite E.
    + cbn [and_then]. now rewrite Hs.
  - exists [], y, texts. repeat split; assumption.
Qed.

(** The loops over the [glob] results print one line per matching entry,
    in the order of the directory, until a [print] raises; [relative_to]
    never does. *)
Lemma print_dirs_glob :
  forall w root listing,
    print_dirs w root (glob_mcore root listing)
    = say_all w (entry_texts listing).
Proof.
  intros w root listing. unfold glob_mcore, entry_texts, matching.
  induction (filter (fun e => startswith (entry_name e) RESULT_PREFIX) listing)
    as [|e l IH].
  - reflexivity.
  - cbn [map print_dirs say_all]. rewrite relative_to_child, IH.
    reflexivity.
Qed.

Lemma glob_mcore_nil :
  forall root listing, glob_mcore root listing = [] <-> matching listing = [].
Proof.
  intros root listing. unfold glob_mcore. fold (matching listing).
  destruct (matching listing); simpl; split;
    solve [reflexivity | discriminate].
Qed.

(** Lines 78-90 as one run of [print] calls. *)
Lemma completion_step :
  forall w c,
    and_then
      (say w (if (c =? 0)%Z then msg_success else msg_warnings c))
      match glob_mcore (project_root w) (root_entries w) with
      | _ :: _ =>
          and_then (say w RESULTS_HEADING)
                   (print_dirs w (project_root w)
                      (glob_mcore (project_root w) (root_entries w)))
      | [] => say w msg_no_dirs
      end
    = say_all w (completion_texts w c).
Proof.
  intros w c. unfold completion_texts. cbn [say_all]. f_equal.
  rewrite print_dirs_glob.
  pose proof (glob_mcore_nil (project_root w) (root_entries w)) as Hnil.
  destruct (glob_mcore (project_root w) (root_entries w)) as [|d ds].
  - rewrite (proj1 Hnil eq_refl). cbn [say_all]. now rewrite and_then_done.
  - destruct (matching (root_entries w)) as [|e es] eqn:E.
    + destruct Hnil as [_ Hnil]. now specialize (Hnil eq_refl).
    + reflexivity.
Qed.

(** Lines 95-104 as one run of [print] calls. *)
Lemma timeout_step :
  forall a w,
    and_then (say w (msg_timed_out (timeout a)))
      (and_then
         (say w (py "Partial results may be available in mcore_* directories"))
         match glob_mcore (project_root w) (root_entries w) with
         | _ :: _ =>
             and_then (say w PARTIAL_HEADING)
                      (print_dirs w (project_root w)
                         (glob_mcore (project_root w) (root_entries w)))
         | [] => ([], None)
         end)
    = say_all w (timeout_texts a w).
Proof.
  intros a w. unfold timeout_texts. cbn [say_all]. f_equal. f_equal.
  rewrite print_dirs_glob.
  pose proof (glob_mcore_nil (project_root w) (root_entries w)) as Hnil.
  destruct (glob_mcore (project_root w) (root_entries w)) as [|d ds].
  - rewrite (proj1 Hnil eq_refl). reflexivity.
  - destruct (matching (root_entries w)) as [|e es] eqn:E.
    + destruct Hnil as [_ Hnil]. now specialize (Hnil eq_refl).
    + reflexivity.
Qed.

(** ** Parsing the remappings and building the command *)

Lemma read_remappings_from :
  forall lines acc,
    fold_left
      (fun remappings line =>
         let line := strip line in
         if negb (pystr_eqb line []) && negb (startswith line (py "#"))
         then remappings ++ [line]
         else remappings)
      lines acc
    = acc ++ kept_lines lines.
Proof.
  induction lines as [|l lines IH]; intro acc.
  - simpl. now rewrite app_nil_r.
  - cbn [fold_left]. rewrite IH. unfold kept_lines. cbn [map filter].
    unfold is_entry at 2. unfold blank, comment.
    destruct (negb (pystr_eqb (strip l) []) && negb (startswith (strip l) (py "#"))).
    + now rewrite <- app_assoc.
    + reflexivity.
Qed.

(** C3.  The parsed list is exactly the stripped lines that are neither
    blank nor comments, in file order, duplicates included, each kept as
    it is after stripping. *)
Theorem read_remappings_exact :
  forall lines,
    read_remappings lines = kept_lines lines
    /\ (forall l, In l (read_remappings lines) <->
                  exists raw, In raw lines /\ l = strip raw
                              /\ l <> [] /\ startswith l (py "#") = false)
    /\ (forall before l after,
          lines = before ++ l :: after ->
          read_remappings lines =
          read_remappings before
          ++ (if is_entry (strip l) then [strip l] else [])
          ++ read_remappings after).
Proof.
  intro lines.
  assert (E : forall ls, read_remappings ls = kept_lines ls).
  { intro ls. unfold read_remappings. now rewrite read_remappings_from. }
  split; [apply E|]. split.
  - intro l. rewrite E. unfold kept_lines. rewrite filter_In, in_map_iff.
    unfold is_entry, blank, comment. rewrite andb_true_iff, !negb_true_iff.
    split.
    + intros ((raw & <- & Hraw) & Hb & Hc). exists raw.
      repeat split; try assumption.
      intro H. apply pystr_eqb_eq in H. congruence.
    + intros (raw & Hraw & -> & Hb & Hc). split; [now exists raw|].
      split; [|assumption].
      destruct (pystr_eqb (strip raw) []) eqn:Eb; [|reflexivity].
      apply pystr_eqb_eq in Eb. contradiction.
  - intros before l after ->. rewrite !E. unfold kept_lines.
    rewrite map_app, filter_app. cbn [map filter].
    now destruct (is_entry (strip l)).
Qed.

Lemma build_cmd_from :
  forall remappings cmd,
    fold_left (fun cmd remap => cmd ++ [py "--solc-remaps"; remap])
              remappings cmd
    = cmd ++ flat_map (fun r => [py "--solc-remaps"; r]) remappings.
Proof.
  induction remappings as [|r rs IH]; intro cmd.
  - simpl. now rewrite app_nil_r.
  - cbn [fold_left flat_map]. rewrite IH. now rewrite <- app_assoc.
Qed.

(** C4.  The command is [manticore], the contract path, [--contract] and
    the name, then [--solc-remaps] and the entry for each remapping in
    order, then [-v]. *)
Theorem build_cmd_exact :
  forall p n remappings timeout,
    build_cmd {| contract_path := p; contract := n; timeout := timeout |}
              remappings
    = [py "manticore"; p; py "--contract"; n]
      ++ flat_map (fun r => [py "--solc-remaps"; r]) remappings
      ++ [py "-v"].
Proof.
  intros p n remappings timeout. unfold build_cmd. cbn [contract_path contract].
  rewrite build_cmd_from. now rewrite <- !app_assoc.
Qed.

Lemma cons_as_app :
  forall (x : event) (l : list event), x :: l = [x] ++ l.
Proof. reflexivity. Qed.

Lemma printed_plain :
  forall texts e, In e (map (Print Stdout) texts) ->
    to_stderr e = false /\ is_run e = false.
Proof.
  intros texts e H. apply in_map_iff in H as (x & <- & _). now split.
Qed.

Lemma entry_texts_in :
  forall listing e,
    In e listing -> startswith (entry_name e) RESULT_PREFIX = true ->
    In (py "  - " ++ entry_name e) (entry_texts listing)
    /\ matching listing <> [].
Proof.
  intros listing e Hin Hsw.
  assert (Hm : In e (matching listing)) by (apply filter_In; now split).
  split.
  - unfold entry_texts. apply in_map_iff. now exists e.
  - intro E. now rewrite E in Hm.
Qed.

(** ** The outcome of a run *)

Section Main.

Variable repr_list : list pystr -> pystr.
Variable str_exn : exn -> pystr.

Local Abbreviation main := (main repr_list str_exn).
Local Abbreviation announce_texts := (announce_texts repr_list).
Local Abbreviation reaches_child := (reaches_child repr_list).

(** The run from the call of [subprocess.run] on. *)
Lemma main_reaches_child :
  forall a w lines, reaches_child a w lines ->
    main a w =
    (let (t2, e) := try_statement str_exn a w (the_cmd a lines) in
     finish ([Chdir (project_root w)]
             ++ map (Print Stdout)
                    (announce_texts a w (read_remappings lines)
                                    (the_cmd a lines))
             ++ t2, e)).
Proof.
  intros a w lines ((H1 & H2) & Hr & Ha). unfold Runner.main.
  rewrite H1, H2, Hr. cbn [negb]. fold (the_cmd a lines).
  now rewrite (say_all_accepted _ _ Ha).
Qed.

(** The run when the child exits in time and every line is printed. *)
Lemma main_terminates :
  forall a w lines c,
    reaches_child a w lines -> child w = Terminates c ->
    accepted w (completion_texts w c) = true ->
    main a w =
    {| trace :=
         [Chdir (project_root w)]
         ++ map (Print Stdout)
                (announce_texts a w (read_remappings lines) (the_cmd a lines))
         ++ the_call a w lines
            :: map (Print Stdout) (completion_texts w c);
       exit_code := c |}.
Proof.
  intros a w lines c Hr Hchild Hacc. rewrite (main_reaches_child Hr).
  unfold try_statement, try_body. rewrite Hchild.
  rewrite completion_step, (say_all_accepted _ _ Hacc). reflexivity.
Qed.

(** The run when the child is still running at the timeout and every
    line is printed. *)
Lemma main_overruns :
  forall a w lines c,
    reaches_child a w lines -> child w = Overruns c ->
    accepted w (timeout_texts a w) = true ->
    main a w =
    {| trace :=
         [Chdir (project_root w)]
         ++ map (Print Stdout)
                (announce_texts a w (read_remappings lines) (the_cmd a lines))
         ++ the_call a w lines
            :: map (Print Stdout) (timeout_texts a w);
       exit_code := 124 |}.
Proof.
  intros a w lines c Hr Hchild Hacc. rewrite (main_reaches_child Hr).
  unfold try_statement, try_body, on_timeout. rewrite Hchild.
  rewrite timeout_step, (say_all_accepted _ _ Hacc). reflexivity.
Qed.

Lemma announce_not_success :
  forall a w r cmd, ~ In msg_success (announce_texts a w r cmd).
Proof.
  intros a w r cmd H. unfold Runner.announce_texts in H. cbn [In] in H.
  repeat (destruct H as [H|H]; [simpl in H; discriminate|]). destruct H.
Qed.

(** C1 (as amended).  When the run gets as far as the call of
    [subprocess.run], the child exits within the timeout with code [c]
    and the lines of 78-90 are all printed, the run exits with [c] (also
    as the status a POSIX parent reads, for [c] in 0..255).  For [c = 0]
    it prints the success line; for any other [c] it prints the warning
    line with [c] and not the success line.  Nothing goes to the error
    stream in either case. *)
Theorem child_exit_propagated :
  forall a w lines c,
    reaches_child a w lines -> child w = Terminates c ->
    accepted w (completion_texts w c) = true ->
    let r := main a w in
    exit_code r = c
    /\ ((0 <= c < 256)%Z -> exit_status (exit_code r) = c)
    /\ (c = 0%Z -> In (Print Stdout msg_success) (trace r))
    /\ (c <> 0%Z ->
        In (Print Stdout (msg_warnings c)) (trace r)
        /\ ~ In (Print Stdout msg_success) (trace r))
    /\ (forall e, In e (trace r) -> to_stderr e = false).
Proof.
  intros a w lines c Hr Hchild Hacc r. subst r.
  rewrite (main_terminates Hr Hchild Hacc). cbn [trace exit_code].
  split; [reflexivity|].
  split; [intro Hc; unfold exit_status; now apply Z.mod_small|].
  split; [|split].
  - intros ->. apply in_or_app. right. apply in_or_app. right.
    right. now left.
  - intro Hnz. apply Z.eqb_neq in Hnz.
    unfold completion_texts. rewrite Hnz. split.
    + apply in_or_app. right. apply in_or_app. right. right. now left.
    + intro H. apply in_app_or in H as [H|H];
        [destruct H as [H|[]]; discriminate|].
      apply in_app_or in H as [H|H].
      * apply in_map_iff in H as (x & Hx & Hin). injection Hx as ->.
        now apply announce_not_success in Hin.
      * destruct H as [H|[H|H]]; try discriminate.
        destruct (matching (root_entries w)).
        -- destruct H as [H|[]]; discriminate.
        -- destruct H as [H|H]; [discriminate|].
           apply in_map_iff in H as (x & Hx & Hin).
           unfold entry_texts in Hin.
           apply in_map_iff in Hin as (y & <- & _). discriminate.
  - intros e H. apply in_app_or in H as [H|H];
      [destruct H as [<-|[]]; reflexivity|].
    apply in_app_or in H as [H|H]; [now destruct (printed_plain _ _ H)|].
    destruct H as [<-|H]; [reflexivity|].
    now destruct (printed_plain _ _ H).
Qed.


(** C2 (as amended).  When the run gets as far as the call of
    [subprocess.run], the child is still running at the timeout and the
    lines of 95-104 are all printed, the run prints the timeout warning
    and exits with 124, whatever code the child would have ended with. *)
Theorem timeout_exits_124 :
  forall a w lines eventual,
    reaches_child a w lines -> child w = Overruns eventual ->
    accepted w (timeout_texts a w) = true ->
    let r := main a w in
    exit_code r = 124%Z
    /\ exit_status (exit_code r) = 124%Z
    /\ In (Print Stdout (msg_timed_out (timeout a))) (trace r)
    /\ (forall e, In e (trace r) -> to_stderr e = false).
Proof.
  intros a w lines eventual Hr Hchild Hacc r. subst r.
  rewrite (main_overruns Hr Hchild Hacc). cbn [trace exit_code].
  split; [reflexivity|]. split; [reflexivity|]. split.
  - apply in_or_app. right. apply in_or_app. right. right. now left.
  - intros e H. apply in_app_or in H as [H|H];
      [destruct H as [<-|[]]; reflexivity|].
    apply in_app_or in H as [H|H]; [now destruct (printed_plain _ _ H)|].
    destruct H as [<-|H]; [reflexivity|].
    now destruct (printed_plain _ _ H).
Qed.


Lemma entry_lines_texts :
  forall listing, entry_lines listing = map (Print Stdout) (entry_texts listing).
Proof.
  intro listing. unfold entry_lines, entry_texts. now rewrite map_map.
Qed.

(** C6 (as amended).  When the run gets as far as the call of
    [subprocess.run], the child ends in time (with any code) or runs
    into the timeout, and the lines after it are all printed, every
    directory of the project root whose name starts with [mcore_] is
    listed by its path relative to the root, under the heading "Results
    saved in:" in the first case and "Partial results found in:" in the
    second; the listing is the end of the trace and follows the order of
    the directory. *)
Theorem result_directories_listed :
  forall a w lines c,
    reaches_child a w lines ->
    child w = Terminates c \/ child w = Overruns c ->
    accepted w (after_child_texts a w) = true ->
    let heading :=
      match child w with
      | Overruns _ => PARTIAL_HEADING
      | _ => RESULTS_HEADING
      end in
    (matching (root_entries w) <> [] ->
     exists before,
       trace (main a w) =
       before ++ Print Stdout heading :: entry_lines (root_entries w))
    /\ (forall e,
          In e (root_entries w) -> entry_is_dir e = true ->
          startswith (entry_name e) RESULT_PREFIX = true ->
          In (project_root w ++ [entry_name e])
             (glob_mcore (project_root w) (root_entries w))
          /\ relative_to (project_root w ++ [entry_name e]) (project_root w)
             = Some [entry_name e]
          /\ In (Print Stdout heading) (trace (main a w))
          /\ In (Print Stdout (msg_entry [entry_name e])) (trace (main a w))).
Proof.
  intros a w lines c Hr Hchild Hacc heading.
  assert (Hshape : matching (root_entries w) <> [] ->
     exists before,
       trace (main a w) =
       before ++ Print Stdout heading :: entry_lines (root_entries w)).
  { intro Hne. subst heading. rewrite entry_lines_texts.
    unfold after_child_texts in Hacc.
    destruct Hchild as [Hchild|Hchild]; rewrite Hchild in Hacc |- *.
    - rewrite (main_terminates Hr Hchild Hacc). cbn [trace].
      unfold completion_texts.
      destruct (matching (root_entries w)) as [|e es] eqn:E;
        [contradiction|].
      exists ([Chdir (project_root w)]
              ++ map (Print Stdout)
                     (announce_texts a w (read_remappings lines)
                                     (the_cmd a lines))
              ++ [the_call a w lines;
                  Print Stdout (if (c =? 0)%Z then msg_success
                                else msg_warnings c)]).
      rewrite <- !app_assoc. reflexivity.
    - rewrite (main_overruns Hr Hchild Hacc). cbn [trace].
      unfold timeout_texts.
      destruct (matching (root_entries w)) as [|e es] eqn:E;
        [contradiction|].
      exists ([Chdir (project_root w)]
              ++ map (Print Stdout)
                     (announce_texts a w (read_remappings lines)
                                     (the_cmd a lines))
              ++ [the_call a w lines;
                  Print Stdout (msg_timed_out (timeout a));
                  Print Stdout
                    (py "Partial results may be available in mcore_* directories")]).
      rewrite <- !app_assoc. reflexivity. }
  split; [exact Hshape|].
  intros e Hin Hdir Hsw.
  destruct (entry_texts_in _ _ Hin Hsw) as [Hline Hne].
  destruct (Hshape Hne) as (before & ->).
  split; [|split; [apply relative_to_child|split]].
  - unfold glob_mcore. apply in_map_iff. exists e. split; [reflexivity|].
    apply filter_In. now split.
  - apply in_or_app. right. now left.
  - apply in_or_app. right. right. rewrite entry_lines_texts.
    apply in_map_iff. exists (py "  - " ++ entry_name e). now split.
Qed.


(** C7.  When [remappings.txt] is missing, or [node_modules] is, the run
    prints its error to the error stream and exits with 1 without calling
    [subprocess.run]; the first lines of the two errors differ. *)
Theorem missing_config_exits_1 :
  forall a w,
    remappings_exists w && node_modules_exists w = false ->
    let r := main a w in
    exit_code r = 1%Z
    /\ (forall e, In e (trace r) -> is_run e = false)
    /\ trace r =
       Chdir (project_root w)
       :: (if remappings_exists w then
             [Print Stderr
                (py "Error: node_modules not found at "
                    ++ str_of_path (project_root w ++ [py "node_modules"]));
              Print Stderr (py "Please run 'npm ci' first")]
           else
             [Print Stderr
                (py "Error: remappings.txt not found at "
                    ++ str_of_path (project_root w ++ [py "remappings.txt"]))])
    /\ (forall x y,
          py "Error: remappings.txt not found at " ++ x
          <> py "Error: node_modules not found at " ++ y).
Proof.
  intros a w H r. subst r. unfold Runner.main.
  destruct (remappings_exists w); cbn [negb].
  - destruct (node_modules_exists w); [discriminate|]. cbn [negb].
    cbn [finish trace exit_code app].
    split; [reflexivity|]. split; [|split; [reflexivity|]].
    + intros e He. cbn [In] in He.
      repeat (destruct He as [<-|He]; [reflexivity|]). destruct He.
    + intros x y E. simpl in E. discriminate.
  - cbn [finish trace exit_code app].
    split; [reflexivity|]. split; [|split; [reflexivity|]].
    + intros e He. cbn [In] in He.
      repeat (destruct He as [<-|He]; [reflexivity|]). destruct He.
    + intros x y E. simpl in E. discriminate.
Qed.

End Main.

End RunnerFacts.

(* ================================================================== *)
(** * The theorems on the sample inputs *)
(* ================================================================== *)

Module Instances.
Import Overlap Patcher Runner Samples Terminals PatcherFacts RunnerFacts.

Example legacy_text_transformed :
  transform legacy_text =
  py "import collections" ++ NL
  ++ py "import collections.abc" ++ NL
  ++ py "import os" ++ NL
  ++ py "import collections" ++ NL
  ++ py "import collections.abc" ++ NL
  ++ py "f = collections.abc.Callable" ++ NL.
Proof. vm_compute. reflexivity. Qed.

Example no_import_at_all :
  transform (py "# types" ++ NL ++ py "f = collections.Callable" ++ NL) =
  py "# types" ++ NL ++ py "import collections.abc" ++ NL
  ++ py "f = collections.abc.Callable" ++ NL.
Proof. vm_compute. reflexivity. Qed.

Example remappings_txt_parsed :
  read_remappings remappings_txt =
  [py "@oz/=node_modules/@oz/"; py "ds-test/=lib/ds-test/src/";
   py "@oz/=node_modules/@oz/"].
Proof. vm_compute. reflexivity. Qed.

Example warning_run :
  let r := main plain_list no_text token_args (project (Terminates 3)) in
  exit_code r = 3%Z
  /\ skipn 6 (trace r) =
     [SubprocessRun
        [py "manticore"; py "contracts/Token.sol"; py "--contract"; py "Token";
         py "--solc-remaps"; py "@oz/=node_modules/@oz/";
         py "--solc-remaps"; py "ds-test/=lib/ds-test/src/";
         py "--solc-remaps"; py "@oz/=node_modules/@oz/"; py "-v"]
        [py "srv"; py "repo"] 300;
      Print Stdout (msg_warnings 3);
      Print Stdout RESULTS_HEADING;
      Print Stdout (py "  - mcore_a1");
      Print Stdout (py "  - mcore_b2")].
Proof. vm_compute. split; reflexivity. Qed.

Lemma project_reaches_child :
  forall c, reaches_child plain_list token_args (project c) remappings_txt.
Proof. intro c. repeat split. Defined.

Lemma child_exit_propagated_witness :
  exit_code (main plain_list no_text token_args (project (Terminates 3)))
  = 3%Z
  /\ In (Print Stdout (msg_warnings 3))
        (trace (main plain_list no_text token_args (project (Terminates 3)))).
Proof.
  pose proof (@child_exit_propagated plain_list no_text token_args
                (project (Terminates 3)) remappings_txt 3%Z
                (project_reaches_child _) eq_refl eq_refl) as H.
  cbv zeta in H. destruct H as (H1 & _ & _ & H4 & _).
  split; [exact H1|]. apply H4. discriminate.
Defined.

(** On a terminal that only takes ASCII the success line cannot be
    printed: the child has exited with 0, and the run reports an
    unexpected error and exits with 1. *)
Lemma success_line_refused :
  reaches_child plain_list token_args (ascii_project (Terminates 0))
                remappings_txt
  /\ child (ascii_project (Terminates 0)) = Terminates 0
  /\ exit_code (main plain_list no_text token_args
                  (ascii_project (Terminates 0))) = 1%Z
  /\ existsb to_stderr
       (trace (main plain_list no_text token_args
                 (ascii_project (Terminates 0)))) = true
  /\ ~ In (Print Stdout msg_success)
          (trace (main plain_list no_text token_args
                    (ascii_project (Terminates 0)))).
Proof.
  split; [repeat split|]. split; [reflexivity|].
  split; [vm_compute; reflexivity|]. split; [vm_compute; reflexivity|].
  intro H. vm_compute in H.
  repeat (destruct H as [H|H]; [discriminate|]). destruct H.
Qed.

Lemma timeout_exits_124_witness :
  exit_code (main plain_list no_text token_args (project (Overruns 0)))
  = 124%Z.
Proof.
  exact (proj1 (@timeout_exits_124 plain_list no_text token_args
                  (project (Overruns 0)) remappings_txt 0%Z
                  (project_reaches_child _) eq_refl eq_refl)).
Defined.

(** On a terminal that only takes ASCII the timeout warning cannot be
    printed: the exception leaves the handler, and the run ends with a
    traceback and code 1, not 124. *)
Lemma timeout_warning_refused :
  reaches_child plain_list token_args (ascii_project (Overruns 0))
                remappings_txt
  /\ child (ascii_project (Overruns 0)) = Overruns 0
  /\ exit_code (main plain_list no_text token_args
                  (ascii_project (Overruns 0))) = 1%Z
  /\ existsb to_stderr
       (trace (main plain_list no_text token_args
                 (ascii_project (Overruns 0)))) = true.
Proof.
  split; [repeat split|]. split; [reflexivity|].
  split; vm_compute; reflexivity.
Qed.

Lemma result_directories_listed_witness :
  In (Print Stdout PARTIAL_HEADING)
     (trace (main plain_list no_text token_args (project (Overruns 0))))
  /\ In (Print Stdout (py "  - mcore_b2"))
        (trace (main plain_list no_text token_args (project (Overruns 0)))).
Proof.
  pose proof (@result_directories_listed plain_list no_text token_args
                (project (Overruns 0)) remappings_txt 0%Z
                (project_reaches_child _) (or_intror eq_refl) eq_refl) as H.
  cbv zeta in H. destruct H as [_ H].
  destruct (H {| entry_name := py "mcore_b2"; entry_is_dir := true |})
    as (_ & _ & H3 & H4).
  - right. right. left. reflexivity.
  - reflexivity.
  - reflexivity.
  - split; [exact H3|exact H4].
Defined.

(** With a result directory whose name the terminal cannot take, the
    listing stops there: the directory after it is not listed, and the
    run ends as on an unexpected error. *)
Lemma listing_cut_short :
  reaches_child plain_list token_args (odd_project (Terminates 0))
                remappings_txt
  /\ child (odd_project (Terminates 0)) = Terminates 0
  /\ In {| entry_name := py "mcore_b2"; entry_is_dir := true |}
        (root_entries (odd_project (Terminates 0)))
  /\ startswith (py "mcore_b2") RESULT_PREFIX = true
  /\ ~ In (Print Stdout (msg_entry [py "mcore_b2"]))
          (trace (main plain_list no_text token_args
                    (odd_project (Terminates 0))))
  /\ exit_code (main plain_list no_text token_args
                  (odd_project (Terminates 0))) = 1%Z.
Proof.
  split; [repeat split|]. split; [reflexivity|].
  split; [right; right; left; reflexivity|]. split; [reflexivity|].
  split; [|vm_compute; reflexivity].
  intro H. vm_compute in H.
  repeat (destruct H as [H|H]; [discriminate|]). destruct H.
Qed.

Lemma missing_config_exits_1_witness :
  exit_code (main plain_list no_text token_args fresh_clone) = 1%Z.
Proof.
  exact (proj1 (@missing_config_exits_1 plain_list no_text token_args
                  fresh_clone eq_refl)).
Defined.

Lemma deprecated_all_replaced_witness :
  str_in DEPRECATED legacy_text = true
  /\ str_in DEPRECATED
       (file_after legacy_text (patch_file types_py legacy_text)) = false.
Proof.
  split; [reflexivity|].
  destruct (@deprecated_all_replaced types_py legacy_text eq_refl)
    as (H1 & _ & _ & _ & H5 & _).
  rewrite H1. exact H5.
Defined.

Lemma already_patched_untouched_witness :
  written (patch_file types_py hinted_text) = None
  /\ str_in DEPRECATED (file_after hinted_text (patch_file types_py hinted_text))
     = true.
Proof.
  destruct (@already_patched_untouched types_py hinted_text eq_refl eq_refl)
    as (H1 & H2 & _).
  split.
  - rewrite H1. reflexivity.
  - rewrite H2. reflexivity.
Defined.

Lemma import_added_after_every_line_witness :
  occurrences IMPORT_LINE legacy_text = 2
  /\ occurrences (IMPORT_ABC ++ NL) (transform legacy_text) = 2.
Proof.
  split; [reflexivity|].
  pose proof (@import_added_after_every_line types_py legacy_text 2
                eq_refl eq_refl (le_S 1 1 (le_n 1))) as H.
  cbv zeta in H.
  exact (proj2 (proj2 (proj2 (proj2 (proj2 (proj2 (proj2 H))))))).
Defined.

End Instances.

(* ================================================================== *)
(** * The patcher: finding the file, and [main] *)
(* ================================================================== *)

Module PatcherMainFacts.
Import Overlap StrFacts ScanFacts Patcher Runner PatcherMain PatcherFacts.

Lemma first_types_py_spec :
  forall exists_ sps,
    match first_types_py exists_ sps with
    | Some p =>
        exists_ p = true
        /\ exists before sp after,
             sps = before ++ sp :: after /\ p = types_under sp
             /\ forall sp', In sp' before -> exists_ (types_under sp') = false
    | None => forall sp, In sp sps -> exists_ (types_under sp) = false
    end.
Proof.
  intros exists_ sps. induction sps as [|sp sps IH]; cbn [first_types_py].
  - intros sp [].
  - destruct (exists_ (types_under sp)) eqn:E.
    + split; [exact E|]. exists [], sp, sps. repeat split. intros sp' [].
    + destruct (first_types_py exists_ sps) as [p|].
      * destruct IH as (Hp & before & sp0 & after & -> & -> & Hb).
        split; [exact Hp|]. exists (sp :: before), sp0, after.
        repeat split. intros sp' [<-|H]; [exact E|now apply Hb].
      * intros sp' [<-|H]; [exact E|now apply IH].
Qed.

(** X1.  [find_wasm_types] returns the [wasm/types.py] of the first
    directory that has one, the site-packages directories being tried in
    their order and the user directory last; it returns [None] exactly
    when no directory has one. *)
Theorem find_wasm_types_first :
  forall i,
    match find_wasm_types i with
    | Some p =>
        is_file i p = true
        /\ exists before sp after,
             site_packages i ++ [user_site i] = before ++ sp :: after
             /\ p = types_under sp
             /\ forall sp', In sp' before ->
                            is_file i (types_under sp') = false
    | None =>
        forall sp, In sp (site_packages i ++ [user_site i]) ->
                   is_file i (types_under sp) = false
    end.
Proof.
  intro i. unfold find_wasm_types.
  pose proof (first_types_py_spec (is_file i) (site_packages i)) as H.
  destruct (first_types_py (is_file i) (site_packages i)) as [p|].
  - destruct H as (Hp & before & sp & after & E & -> & Hb).
    split; [exact Hp|]. exists before, sp, (after ++ [user_site i]).
    rewrite E, <- app_assoc. repeat split. exact Hb.
  - destruct (is_file i (types_under (user_site i))) eqn:E.
    + split; [exact E|]. exists (site_packages i), (user_site i), [].
      repeat split. exact H.
    + intros sp Hin. apply in_app_or in Hin as [Hin|[<-|[]]];
        [now apply H|exact E].
Qed.






End PatcherMainFacts.

(* ================================================================== *)
(** * The patcher: when it writes, and where the import goes *)
(* ================================================================== *)

Module PatcherTextFacts.
Import Overlap StrFacts ScanFacts Patcher PatcherFacts.

Lemma str_in_occurrences :
  forall p s, str_in p s = negb (occurrences p s =? 0).
Proof.
  intros p s. induction s as [|c s IH]; cbn [str_in occurrences].
  - destruct (startswith [] p); reflexivity.
  - rewrite IH. destruct (startswith (c :: s) p); [reflexivity|].
    reflexivity.
Qed.

(** A pattern without a line feed lies within one line. *)
Lemma occurrences_by_line :
  forall p, p <> [] -> inert_in p NL = true -> no_overhang p NL = true ->
    forall l, occurrences p (str_join NL l) = list_sum (map (occurrences p) l).
Proof.
  intros p Hp HI HO l. induction l as [|x l IH].
  - destruct p; [contradiction|reflexivity].
  - destruct l as [|y l].
    + cbn [str_join map]. unfold list_sum. cbn [fold_right]. lia.
    + change (str_join NL (x :: y :: l))
        with (x ++ NL ++ str_join NL (y :: l)).
      rewrite occurrences_before_inert by assumption.
      rewrite occurrences_app_inert by assumption.
      rewrite IH. unfold list_sum. reflexivity.
Qed.

Lemma file_after_transform :
  forall file_path content,
    already_patched content = false ->
    file_after content (patch_file file_path content) = transform content.
Proof.
  intros file_path content H. unfold file_after, patch_file. rewrite H.
  destruct (pystr_eq_dec _ _) as [E|E]; cbn [written]; congruence.
Qed.

(** X5.  The transformed text equals the original exactly when the
    original holds no deprecated reference and either holds
    ['import collections.abc'] already or holds ['import collections']
    only in forms that are not followed by a line feed.  These are the
    texts for which [patch_file] prints "No changes needed." when line 35
    does not stop it; every other such text is written back. *)
Theorem rewritten_exactly_when :
  forall file_path content,
    (transform content = content <->
     str_in DEPRECATED content = false
     /\ (str_in IMPORT_ABC content = true
         \/ (str_in IMPORT_COLLECTIONS content = true
             /\ str_in IMPORT_LINE content = false)))
    /\ (written (patch_file file_path content) = None <->
        already_patched content = true \/ transform content = content).
Proof.
  intros file_path content. split.
  - split.
    + intro E. split.
      * rewrite <- E. apply no_deprecated_left.
      * destruct (add_import_cases content) as [H|(_ & _ & H2 & H3)].
        -- left. rewrite <- E. now apply import_abc_kept.
        -- right. now split.
    + intros (Hd & Hi).
      assert (Ha : add_import content = content).
      { unfold add_import.
        destruct (str_in IMPORT_ABC content); cbn [negb]; [reflexivity|].
        destruct Hi as [Hi|(H2 & H3)]; [discriminate|].
        rewrite H2. apply str_replace_absent;
          [exact IMPORT_LINE_nonempty|exact H3]. }
      unfold transform. rewrite Ha.
      apply str_replace_absent; [exact DEPRECATED_nonempty|exact Hd].
  - unfold patch_file. destruct (already_patched content).
    + split; [now left|reflexivity].
    + destruct (pystr_eq_dec (transform content) content) as [E|E].
      * split; [now right|reflexivity].
      * split; [discriminate|]. intros [H|H]; [discriminate|contradiction].
Qed.

(** X6.  The test of line 35 comes down to its second part, and the
    tool never produces a text that passes it: if the text read does not
    hold ['from collections.abc import'], neither does the text left in
    the file.  A second call therefore goes through the transformation
    again and prints "No changes needed.", not "File already patched.". *)
Theorem never_flagged_by_own_patch :
  forall file_path content,
    already_patched content
    = str_in (py "from collections.abc import") content
    /\ (already_patched content = false ->
        let content1 := file_after content (patch_file file_path content) in
        already_patched content1 = false
        /\ patch_file file_path content1 =
           {| printed := [py "Patching " ++ file_path ++ py "...";
                          py "No changes needed."];
              written := None; returned := true |}).
Proof.
  intros file_path content.
  assert (Hone : forall c, already_patched c
                           = str_in (py "from collections.abc import") c).
  { intro c. unfold already_patched.
    destruct (str_in (py "from collections.abc import") c) eqn:E.
    - rewrite (str_in_trans (py "collections.abc")
                 (py "from collections.abc import") c);
        [reflexivity|vm_compute; reflexivity|exact E].
    - apply andb_false_r. }
  split; [apply Hone|].
  intros Hnot content1. subst content1.
  rewrite file_after_transform by assumption.
  assert (Hstill : already_patched (transform content) = false).
  { rewrite Hone in *. unfold transform.
    apply replace_creates_none;
      [exact DEPRECATED_nonempty|vm_compute; reflexivity ..|].
    unfold add_import.
    destruct (str_in IMPORT_ABC content); cbn [negb]; [exact Hnot|].
    destruct (str_in IMPORT_COLLECTIONS content).
    - apply replace_creates_none;
        [exact IMPORT_LINE_nonempty|vm_compute; reflexivity ..|exact Hnot].
    - rewrite str_in_occurrences in *. apply negb_false_iff in Hnot.
      apply negb_false_iff. apply Nat.eqb_eq in Hnot. apply Nat.eqb_eq.
      assert (Hc : str_join NL (str_split NL content) = content)
        by (apply join_split; discriminate).
      remember (str_split NL content) as lines eqn:El. clear El.
      rewrite <- Hc in Hnot. clear Hc.
      rewrite occurrences_by_line in *
        by (try discriminate; vm_compute; reflexivity).
      unfold list_insert. rewrite map_app, list_sum_app. cbn [map].
      rewrite <- (firstn_skipn (find_insert_pos 0 lines) lines) in Hnot.
      rewrite map_app, list_sum_app in Hnot.
      change (list_sum
                (occurrences (py "from collections.abc import") IMPORT_ABC
                 :: map (occurrences (py "from collections.abc import"))
                        (skipn (find_insert_pos 0 lines) lines)))
        with (list_sum
                (map (occurrences (py "from collections.abc import"))
                     (skipn (find_insert_pos 0 lines) lines))).
      exact Hnot. }
  split; [exact Hstill|].
  unfold patch_file. rewrite Hstill.
  destruct (pystr_eq_dec (transform (transform content)) (transform content))
    as [E|E]; [reflexivity|].
  destruct E. apply transform_fixed.
Qed.

(** X7.  Unless the text has ['import collections'] only in forms not
    followed by a line feed, the transformed text holds
    ['import collections.abc']. *)
Theorem import_ensured :
  forall content,
    str_in IMPORT_ABC content = true
    \/ str_in IMPORT_LINE content = true
    \/ str_in IMPORT_COLLECTIONS content = false ->
    str_in IMPORT_ABC (transform content) = true.
Proof.
  intros content H. unfold transform. apply import_abc_kept.
  destruct (add_import_cases content) as [Hc|(_ & H1 & H2 & H3)];
    [exact Hc|].
  destruct H as [H|[H|H]]; congruence.
Qed.

(** X8.  When the text has ['import collections'] but never followed by
    a line feed (as in [import collections as c], or on a last line
    without line feed) and no ['import collections.abc'], the import step
    changes nothing: the references are rewritten, and the output has no
    [import collections.abc] line. *)
Theorem import_skipped :
  forall content,
    str_in IMPORT_COLLECTIONS content = true ->
    str_in IMPORT_LINE content = false ->
    str_in IMPORT_ABC content = false ->
    add_import content = content
    /\ transform content = str_replace DEPRECATED UPDATED content
    /\ occurrences (IMPORT_ABC ++ NL) (transform content) = 0.
Proof.
  intros content H1 H2 H3.
  assert (Ha : add_import content = content).
  { unfold add_import. rewrite H3, H1. cbn [negb].
    apply str_replace_absent; [exact IMPORT_LINE_nonempty|exact H2]. }
  split; [exact Ha|]. unfold transform. rewrite Ha.
  split; [reflexivity|].
  apply occurrences_zero. change (IMPORT_ABC ++ NL) with ABC_LINE.
  apply abc_line_not_made.
  apply str_in_false_sub with IMPORT_ABC; [vm_compute; reflexivity|exact H3].
Qed.

(** ** The fallback insertion *)

Lemma find_insert_pos_none :
  forall lines i,
    (forall l, In l lines -> is_code_line l = false) ->
    find_insert_pos i lines = 0.
Proof.
  induction lines as [|x lines IH]; intros i H; [reflexivity|].
  cbn [find_insert_pos]. rewrite (H x) by now left.
  apply IH. intros l Hl. apply H. now right.
Qed.

Lemma find_insert_pos_some :
  forall lines i,
    (exists l, In l lines /\ is_code_line l = true) ->
    exists j,
      find_insert_pos i lines = i + j /\ j < List.length lines
      /\ (forall l, In l (firstn j lines) -> is_code_line l = false)
      /\ is_code_line (nth j lines []) = true.
Proof.
  induction lines as [|x lines IH]; intros i (l & Hl & Hc); [destruct Hl|].
  cbn [find_insert_pos]. destruct (is_code_line x) eqn:E.
  - exists 0. cbn. repeat split; try lia; try assumption;
      try (intros l' []).
  - destruct Hl as [<-|Hl]; [congruence|].
    destruct (IH (S i) (ex_intro _ l (conj Hl Hc)))
      as (j & Hj & Hlen & Hbefore & Hat).
    exists (S j). cbn [List.length firstn nth]. repeat split; try lia.
    + intros l' [<-|Hl']; [exact E|now apply Hbefore].
    + exact Hat.
Qed.

Lemma str_join_app :
  forall sep (a b : list pystr), a <> [] -> b <> [] ->
    str_join sep (a ++ b) = str_join sep a ++ sep ++ str_join sep b.
Proof.
  intros sep a b Ha Hb. induction a as [|x a IH]; [contradiction|].
  destruct a as [|y a].
  - simpl app. now rewrite str_join_cons.
  - change ((x :: y :: a) ++ b) with (x :: ((y :: a) ++ b)).
    rewrite str_join_cons by discriminate.
    rewrite IH by discriminate.
    change (str_join sep (x :: y :: a))
      with (x ++ sep ++ str_join sep (y :: a)).
    now rewrite <- !app_assoc.
Qed.

(** X9.  A text without ['import collections'] gets the line
    [import collections.abc] as a whole line of its own, before the
    first line that does not start (after stripping) with [#] or a
    triple quote, and at the very top when every line does.  The lines
    above the new one are all such comment or quote lines, and the text
    before and after it is the original text, unchanged and in order. *)
Theorem import_inserted_before_first_code_line :
  forall content,
    str_in IMPORT_COLLECTIONS content = false ->
    let lines := str_split NL content in
    let k := find_insert_pos 0 lines in
    add_import content
    = str_join NL (firstn k lines ++ IMPORT_ABC :: skipn k lines)
    /\ k < List.length lines
    /\ (forall l, In l (firstn k lines) -> is_code_line l = false)
    /\ ((exists l, In l lines /\ is_code_line l = true) ->
        is_code_line (nth k lines []) = true)
    /\ ((forall l, In l lines -> is_code_line l = false) -> k = 0)
    /\ exists head tail,
         content = head ++ tail
         /\ add_import content = head ++ IMPORT_ABC ++ NL ++ tail
         /\ (head = [] \/ exists above, head = above ++ NL).
Proof.
  intros content Hnone lines k.
  assert (Habc : str_in IMPORT_ABC content = false).
  { apply str_in_false_sub with IMPORT_COLLECTIONS;
      [vm_compute; reflexivity|exact Hnone]. }
  assert (Hadd : add_import content
                 = str_join NL (firstn k lines ++ IMPORT_ABC :: skipn k lines)).
  { unfold add_import. rewrite Habc, Hnone. reflexivity. }
  assert (Hne : lines <> []) by (apply str_split_nonempty; discriminate).
  assert (Hjoin : str_join NL lines = content)
    by (apply join_split; discriminate).
  assert (Hk : k < List.length lines
               /\ (forall l, In l (firstn k lines) -> is_code_line l = false)
               /\ ((exists l, In l lines /\ is_code_line l = true) ->
                   is_code_line (nth k lines []) = true)
               /\ ((forall l, In l lines -> is_code_line l = false) -> k = 0)).
  { destruct (existsb is_code_line lines) eqn:E.
    - apply existsb_exists in E.
      destruct (@find_insert_pos_some lines 0 E) as (j & Hj & Hlen & Hb & Hat).
      simpl in Hj. unfold k. rewrite Hj.
      split; [exact Hlen|]. split; [exact Hb|].
      split; [intros _; exact Hat|].
      intro Hall. destruct E as (l & Hl & Hc). rewrite (Hall l Hl) in Hc.
      discriminate.
    - assert (Hall : forall l, In l lines -> is_code_line l = false).
      { intros l Hl. destruct (is_code_line l) eqn:Ec; [|reflexivity].
        assert (existsb is_code_line lines = true)
          by (apply existsb_exists; now exists l).
        congruence. }
      assert (Hz : k = 0) by (apply find_insert_pos_none; exact Hall).
      unfold k in *. rewrite Hz. repeat split.
      + destruct lines; [contradiction|cbn; lia].
      + intros l [].
      + intros (l & Hl & Hc). rewrite (Hall l Hl) in Hc. discriminate. }
  clearbody k. clearbody lines.
  split; [exact Hadd|]. destruct Hk as (Hlt & Hb & Hat & Hz).
  repeat split; try assumption.
  assert (Hskip : skipn k lines <> []).
  { intro E. apply (f_equal (@List.length _)) in E.
    rewrite length_skipn in E. simpl in E. lia. }
  rewrite Hadd. clear Hadd. subst content.
  destruct k as [|k'].
  - exists [], (str_join NL lines). cbn [firstn skipn app].
    split; [reflexivity|]. split; [|now left].
    now rewrite str_join_cons.
  - assert (Hfirst : firstn (S k') lines <> []).
    { intro E. apply (f_equal (@List.length _)) in E.
      rewrite length_firstn in E. cbn [List.length] in E. lia. }
    exists (str_join NL (firstn (S k') lines) ++ NL),
           (str_join NL (skipn (S k') lines)).
    split; [|split].
    + rewrite <- (firstn_skipn (S k') lines) at 1.
      rewrite str_join_app by assumption. now rewrite <- app_assoc.
    + rewrite str_join_app by (assumption || discriminate).
      rewrite str_join_cons by assumption. now rewrite <- !app_assoc.
    + right. now exists (str_join NL (firstn (S k') lines)).
Qed.

End PatcherTextFacts.

(* ================================================================== *)
(** * The runner: every way a run can end *)
(* ================================================================== *)

Module RunnerOutcomeFacts.
Import Overlap StrFacts Runner RunnerFacts.

Section Outcomes.

Variable repr_list : list pystr -> pystr.
Variable str_exn : exn -> pystr.

Local Abbreviation main := (main repr_list str_exn).
Local Abbreviation announce_texts := (announce_texts repr_list).
Local Abbreviation reaches_child := (reaches_child repr_list).
Local Abbreviation spawns := (spawns repr_list).
Local Abbreviation clean := (clean repr_list).

(** The run when a configuration check fails. *)
Lemma main_unconfigured :
  forall a w,
    remappings_exists w && node_modules_exists w = false ->
    main a w =
    {| trace :=
         Chdir (project_root w)
         :: (if remappings_exists w then
               [Print Stderr
                  (py "Error: node_modules not found at "
                      ++ str_of_path (project_root w ++ [py "node_modules"]));
                Print Stderr (py "Please run 'npm ci' first")]
             else
               [Print Stderr
                  (py "Error: remappings.txt not found at "
                      ++ str_of_path
                           (project_root w ++ [py "remappings.txt"]))]);
       exit_code := 1 |}.
Proof.
  intros a w H. unfold Runner.main.
  destruct (remappings_exists w); cbn [negb]; [|reflexivity].
  destruct (node_modules_exists w); [discriminate|reflexivity].
Qed.

(** The run when [remappings.txt] cannot be read. *)
Lemma main_unreadable :
  forall a w, configured w -> remappings_read w = None ->
    main a w =
    {| trace := [Chdir (project_root w); PrintExc]; exit_code := 1 |}.
Proof.
  intros a w [H1 H2] Hr. unfold Runner.main. now rewrite H1, H2, Hr.
Qed.

(** The run when one of the lines before the call is refused. *)
Lemma main_announce_refused :
  forall a w lines,
    configured w -> remappings_read w = Some lines ->
    accepted w (announce_texts a w (read_remappings lines) (the_cmd a lines))
    = false ->
    exists before x after,
      announce_texts a w (read_remappings lines) (the_cmd a lines)
      = before ++ x :: after
      /\ main a w =
         {| trace :=
              Chdir (project_root w)
              :: map (Print Stdout) before ++ [PrintExc];
            exit_code := 1 |}.
Proof.
  intros a w lines [H1 H2] Hr Ha.
  destruct (say_all_refused _ _ Ha) as (before & x & after & E & _ & _ & Hs).
  exists before, x, after. split; [exact E|].
  unfold Runner.main. rewrite H1, H2, Hr. cbn [negb].
  fold (the_cmd a lines). now rewrite Hs.
Qed.

(** The run when a line after a child that ended in time is refused. *)
Lemma main_completion_refused :
  forall a w lines c,
    reaches_child a w lines -> child w = Terminates c ->
    accepted w (completion_texts w c) = false ->
    exists before x after,
      completion_texts w c = before ++ x :: after
      /\ main a w =
         {| trace :=
              Chdir (project_root w)
              :: map (Print Stdout)
                     (announce_texts a w (read_remappings lines)
                                     (the_cmd a lines))
              ++ [the_call a w lines]
              ++ map (Print Stdout) before
              ++ [Print Stderr
                    (NL ++ CROSS
                        ++ py " Unexpected error running Manticore: "
                        ++ str_exn (PrintError x));
                  PrintExc];
            exit_code := 1 |}.
Proof.
  intros a w lines c Hr Hchild Ha.
  destruct (say_all_refused _ _ Ha) as (before & x & after & E & _ & _ & Hs).
  exists before, x, after. split; [exact E|].
  rewrite (main_reaches_child _ Hr).
  unfold try_statement, try_body. rewrite Hchild, completion_step, Hs.
  cbn [on_exception finish]. cbn [app]. rewrite <- ?app_assoc. reflexivity.
Qed.

(** The run when a line of the timeout handler is refused. *)
Lemma main_timeout_refused :
  forall a w lines c,
    reaches_child a w lines -> child w = Overruns c ->
    accepted w (timeout_texts a w) = false ->
    exists before x after,
      timeout_texts a w = before ++ x :: after
      /\ main a w =
         {| trace :=
              Chdir (project_root w)
              :: map (Print Stdout)
                     (announce_texts a w (read_remappings lines)
                                     (the_cmd a lines))
              ++ [the_call a w lines]
              ++ map (Print Stdout) before
              ++ [PrintExc];
            exit_code := 1 |}.
Proof.
  intros a w lines c Hr Hchild Ha.
  destruct (say_all_refused _ _ Ha) as (before & x & after & E & _ & _ & Hs).
  exists before, x, after. split; [exact E|].
  rewrite (main_reaches_child _ Hr).
  unfold try_statement, try_body, on_timeout.
  rewrite Hchild, timeout_step, Hs.
  cbn [finish]. cbn [app]. rewrite <- ?app_assoc. reflexivity.
Qed.

(** The run when there is no [manticore] binary. *)
Lemma main_missing :
  forall a w lines, reaches_child a w lines -> child w = Missing ->
    main a w =
    {| trace :=
         Chdir (project_root w)
         :: map (Print Stdout)
                (announce_texts a w (read_remappings lines) (the_cmd a lines))
         ++ [the_call a w lines]
         ++ map (Print Stdout) []
         ++ [Print Stderr
               (NL ++ CROSS ++ py " Error: manticore command not found");
             Print Stderr
               (py "Please ensure Manticore is installed: pip install manticore[native]")];
       exit_code := 1 |}.
Proof.
  intros a w lines Hr Hchild. rewrite (main_reaches_child _ Hr).
  unfold try_statement, try_body. rewrite Hchild. reflexivity.
Qed.

(** The run when [subprocess.run] raises anything else. *)
Lemma main_fails :
  forall a w lines text, reaches_child a w lines -> child w = Fails text ->
    main a w =
    {| trace :=
         Chdir (project_root w)
         :: map (Print Stdout)
                (announce_texts a w (read_remappings lines) (the_cmd a lines))
         ++ [the_call a w lines]
         ++ map (Print Stdout) []
         ++ [Print Stderr
               (NL ++ CROSS ++ py " Unexpected error running Manticore: "
                   ++ str_exn (OtherException text));
             PrintExc];
       exit_code := 1 |}.
Proof.
  intros a w lines text Hr Hchild. rewrite (main_reaches_child _ Hr).
  unfold try_statement, try_body. rewrite Hchild. reflexivity.
Qed.

Lemma printed_no_stderr :
  forall texts, existsb to_stderr (map (Print Stdout) texts) = false.
Proof. induction texts; [reflexivity|assumption]. Qed.

Lemma printed_no_run :
  forall texts, filter is_run (map (Print Stdout) texts) = [].
Proof. induction texts; [reflexivity|assumption]. Qed.

Lemma stderr_no_run :
  forall errs, forallb to_stderr errs = true -> filter is_run errs = [].
Proof.
  induction errs as [|e errs IH]; intro H; [reflexivity|].
  cbn [forallb] in H. apply andb_prop in H as [H1 H2].
  cbn [filter]. destruct e as [| [|] | |]; try discriminate; now apply IH.
Qed.

Lemma stderr_some :
  forall errs, forallb to_stderr errs = true ->
    existsb to_stderr errs = negb (match errs with [] => true | _ => false end).
Proof.
  intros [|e errs] H; [reflexivity|].
  cbn [forallb] in H. apply andb_prop in H as [H1 _].
  cbn [existsb]. now rewrite H1.
Qed.

(** Every run, in one shape: the change of directory, the lines before
    the call that were printed, the call if it was reached, the lines
    after it that were printed, and what went to the error stream. *)
Lemma main_shape :
  forall a w,
    exists pre called post errs,
      trace (main a w) =
      Chdir (project_root w)
      :: map (Print Stdout) pre ++ called ++ map (Print Stdout) post ++ errs
      /\ forallb to_stderr errs = true
      /\ (if clean a w then
            errs = [] /\ post = after_child_texts a w
          else errs <> [])
      /\ exit_code (main a w) =
         (if clean a w then
            match child w with
            | Terminates c => c
            | Overruns _ => 124
            | Missing | Fails _ => 1
            end
          else 1)%Z
      /\ called =
         match remappings_read w with
         | Some lines => if spawns a w then [the_call a w lines] else []
         | None => []
         end
      /\ (forall x, In x pre ->
            exists lines,
              remappings_read w = Some lines
              /\ In x (announce_texts a w (read_remappings lines)
                                      (the_cmd a lines)))
      /\ (forall x, In x post -> In x (after_child_texts a w)).
Proof.
  intros a w.
  destruct (remappings_exists w && node_modules_exists w) eqn:E.
  2:{ rewrite (main_unconfigured a w E). cbn [trace exit_code].
      assert (Hclean : clean a w = false)
        by (unfold Runner.clean; now rewrite E).
      assert (Hsp : spawns a w = false)
        by (unfold Runner.spawns; now rewrite E).
      rewrite Hclean, Hsp.
      eexists [], [], [], _. split; [reflexivity|].
      split; [destruct (remappings_exists w); reflexivity|].
      split; [destruct (remappings_exists w); discriminate|].
      split; [reflexivity|].
      split; [destruct (remappings_read w); reflexivity|].
      split; intros x []. }
  assert (Hc : configured w) by (apply andb_prop in E; exact E).
  destruct (remappings_read w) as [lines|] eqn:Hr.
  2:{ rewrite (main_unreadable a Hc Hr). cbn [trace exit_code].
      assert (Hclean : clean a w = false)
        by (unfold Runner.clean; now rewrite E, Hr).
      rewrite Hclean.
      exists [], [], [], [PrintExc]. repeat split; try discriminate;
        intros x []. }
  destruct (accepted w (announce_texts a w (read_remappings lines)
                                       (the_cmd a lines))) eqn:Ha.
  2:{ destruct (main_announce_refused a Hc Hr Ha)
        as (before & x & after & Eann & ->).
      cbn [trace exit_code].
      assert (Hclean : clean a w = false)
        by (unfold Runner.clean; now rewrite E, Hr, Ha).
      assert (Hsp : spawns a w = false)
        by (unfold Runner.spawns; now rewrite E, Hr, Ha).
      rewrite Hclean, Hsp.
      exists before, [], [], [PrintExc]. repeat split; try discriminate.
      - intros y Hy. exists lines. split; [reflexivity|].
        rewrite Eann. apply in_or_app. now left.
      - intros y []. }
  assert (Hreach : reaches_child a w lines) by exact (conj Hc (conj Hr Ha)).
  assert (Hsp : spawns a w = true)
    by (unfold Runner.spawns; now rewrite E, Hr, Ha).
  rewrite Hsp.
  assert (Hpre : forall x,
             In x (announce_texts a w (read_remappings lines)
                                  (the_cmd a lines)) ->
             exists lines0,
               Some lines = Some lines0
               /\ In x (announce_texts a w (read_remappings lines0)
                                       (the_cmd a lines0)))
    by (intros x Hx; now exists lines).
  destruct (child w) as [c|c| |text] eqn:Hchild.
  - destruct (accepted w (completion_texts w c)) eqn:Hk.
    + rewrite (main_terminates _ Hreach Hchild Hk). cbn [trace exit_code].
      assert (Hclean : clean a w = true)
        by (unfold Runner.clean; now rewrite E, Hr, Ha, Hchild, Hk).
      rewrite Hclean.
      exists (announce_texts a w (read_remappings lines) (the_cmd a lines)),
             [the_call a w lines], (completion_texts w c), [].
      unfold after_child_texts. rewrite Hchild.
      split; [now rewrite app_nil_r|]. split; [reflexivity|].
      split; [now split|]. split; [reflexivity|]. split; [reflexivity|].
      split; [exact Hpre|]. intros x Hx. exact Hx.
    + destruct (main_completion_refused Hreach Hchild Hk)
        as (before & x & after & Ecomp & ->).
      cbn [trace exit_code].
      assert (Hclean : clean a w = false)
        by (unfold Runner.clean; now rewrite E, Hr, Ha, Hchild, Hk).
      rewrite Hclean.
      eexists _, [the_call a w lines], before, _.
      split; [reflexivity|]. unfold after_child_texts. rewrite Hchild.
      split; [reflexivity|]. split; [discriminate|].
      split; [reflexivity|]. split; [reflexivity|].
      split; [exact Hpre|].
      intros y Hy. rewrite Ecomp. apply in_or_app. now left.
  - destruct (accepted w (timeout_texts a w)) eqn:Hk.
    + rewrite (main_overruns _ Hreach Hchild Hk). cbn [trace exit_code].
      assert (Hclean : clean a w = true)
        by (unfold Runner.clean; now rewrite E, Hr, Ha, Hchild, Hk).
      rewrite Hclean.
      exists (announce_texts a w (read_remappings lines) (the_cmd a lines)),
             [the_call a w lines], (timeout_texts a w), [].
      unfold after_child_texts. rewrite Hchild.
      split; [now rewrite app_nil_r|]. split; [reflexivity|].
      split; [now split|]. split; [reflexivity|]. split; [reflexivity|].
      split; [exact Hpre|]. intros x Hx. exact Hx.
    + destruct (main_timeout_refused Hreach Hchild Hk)
        as (before & x & after & Ecomp & ->).
      cbn [trace exit_code].
      assert (Hclean : clean a w = false)
        by (unfold Runner.clean; now rewrite E, Hr, Ha, Hchild, Hk).
      rewrite Hclean.
      eexists _, [the_call a w lines], before, _.
      split; [reflexivity|]. unfold after_child_texts. rewrite Hchild.
      split; [reflexivity|]. split; [discriminate|].
      split; [reflexivity|]. split; [reflexivity|].
      split; [exact Hpre|].
      intros y Hy. rewrite Ecomp. apply in_or_app. now left.
  - rewrite (main_missing Hreach Hchild). cbn [trace exit_code].
    assert (Hclean : clean a w = false)
      by (unfold Runner.clean; rewrite E, Hr, Ha, Hchild; reflexivity).
    rewrite Hclean.
    eexists _, [the_call a w lines], [], _.
    split; [reflexivity|]. unfold after_child_texts. rewrite Hchild.
    split; [reflexivity|]. split; [discriminate|].
    split; [reflexivity|]. split; [reflexivity|].
    split; [exact Hpre|]. intros y [].
  - rewrite (main_fails Hreach Hchild). cbn [trace exit_code].
    assert (Hclean : clean a w = false)
      by (unfold Runner.clean; rewrite E, Hr, Ha, Hchild; reflexivity).
    rewrite Hclean.
    eexists _, [the_call a w lines], [], _.
    split; [reflexivity|]. unfold after_child_texts. rewrite Hchild.
    split; [reflexivity|]. split; [discriminate|].
    split; [reflexivity|]. split; [reflexivity|].
    split; [exact Hpre|]. intros y [].
Qed.

(** A run in which nothing fails, taken apart. *)
Lemma clean_inv :
  forall a w, clean a w = true ->
    exists lines,
      reaches_child a w lines
      /\ accepted w (after_child_texts a w) = true
      /\ (exists c, child w = Terminates c \/ child w = Overruns c).
Proof.
  intros a w H. unfold Runner.clean in H.
  apply andb_prop in H as [Hc H]. apply andb_prop in Hc.
  destruct (remappings_read w) as [lines|] eqn:Hr; [|discriminate].
  apply andb_prop in H as [Ha Hk].
  exists lines. split; [exact (conj Hc (conj Hr Ha))|].
  unfold after_child_texts.
  destruct (child w) as [c|c| |text]; try discriminate.
  - split; [exact Hk|]. exists c. now left.
  - split; [exact Hk|]. exists c. now right.
Qed.

(** X10.  The exit code of every run.  It is 1 when [remappings.txt] or
    [node_modules] is missing, when the file cannot be read, and when one
    of the lines before the call cannot be printed.  Otherwise it is the
    child's code when the child ends in time, 124 when it runs into the
    timeout, and 1 when the binary is missing or [subprocess.run] raises
    anything else; and it is 1 again when a line after the child cannot
    be printed.  Every run starts by changing to the project root. *)
Theorem exit_code_table :
  forall a w,
    exit_code (main a w) =
    (if remappings_exists w && node_modules_exists w then
       match remappings_read w with
       | None => 1
       | Some lines =>
           if accepted w (announce_texts a w (read_remappings lines)
                                         (the_cmd a lines))
           then
             match child w with
             | Terminates c =>
                 if accepted w (completion_texts w c) then c else 1
             | Overruns _ =>
                 if accepted w (timeout_texts a w) then 124 else 1
             | Missing => 1
             | Fails _ => 1
             end
           else 1
       end
     else 1)%Z
    /\ hd_error (trace (main a w)) = Some (Chdir (project_root w)).
Proof.
  intros a w.
  destruct (main_shape a w)
    as (pre & called & post & errs & Et & _ & _ & Ec & _).
  split; [|now rewrite Et].
  rewrite Ec. unfold Runner.clean.
  destruct (remappings_exists w && node_modules_exists w); [|reflexivity].
  destruct (remappings_read w) as [lines|]; [|reflexivity].
  cbn [andb].
  destruct (accepted w _); [|reflexivity]. cbn [andb].
  destruct (child w) as [c|c| |text]; try reflexivity;
    destruct (accepted w _); reflexivity.
Qed.

(** X11.  Something goes to the error stream, a message or a traceback,
    exactly when the run is not a clean one: a configuration check
    fails, [remappings.txt] cannot be read, a line cannot be printed to
    the standard output, the binary is missing, or [subprocess.run]
    raises.  A child that ends with any code, or runs into the timeout,
    leaves the error stream untouched when every line is printed. *)
Theorem error_stream_iff_fatal :
  forall a w,
    existsb to_stderr (trace (main a w)) = negb (clean a w).
Proof.
  intros a w.
  destruct (main_shape a w)
    as (pre & called & post & errs & Et & Herrs & Hclean & _ & Ecalled & _).
  rewrite Et. cbn [existsb to_stderr orb].
  rewrite !existsb_app, !printed_no_stderr. cbn [orb].
  assert (Hcalled : existsb to_stderr called = false).
  { rewrite Ecalled. destruct (remappings_read w); [|reflexivity].
    destruct (spawns a w); reflexivity. }
  rewrite Hcalled. cbn [orb]. rewrite (stderr_some _ Herrs).
  destruct (clean a w).
  - destruct Hclean as [-> _]. reflexivity.
  - destruct errs; [contradiction|reflexivity].
Qed.

(** X12.  [subprocess.run] is called at most once.  It is called when
    both configuration checks pass, [remappings.txt] is read and the
    five lines before the call are printed, whatever the child then
    does, and never otherwise.  The call runs [manticore], the contract
    path, [--contract] and the name, a [--solc-remaps] pair for each
    kept line of [remappings.txt] in order, and [-v], in the project
    root, with the timeout given. *)
Theorem subprocess_run_once :
  forall a w,
    filter is_run (trace (main a w)) =
    match remappings_read w with
    | Some lines =>
        if remappings_exists w && node_modules_exists w
           && accepted w (announce_texts a w (read_remappings lines)
                                         (the_cmd a lines))
        then
          [SubprocessRun
             ([py "manticore"; contract_path a; py "--contract"; contract a]
              ++ flat_map (fun r => [py "--solc-remaps"; r])
                          (kept_lines lines)
              ++ [py "-v"])
             (project_root w) (timeout a)]
        else []
    | None => []
    end.
Proof.
  intros a w.
  assert (Hcall : forall lines, the_call a w lines =
    SubprocessRun
      ([py "manticore"; contract_path a; py "--contract"; contract a]
       ++ flat_map (fun r => [py "--solc-remaps"; r]) (kept_lines lines)
       ++ [py "-v"])
      (project_root w) (timeout a)).
  { intro lines. unfold the_call, the_cmd, build_cmd, read_remappings.
    rewrite read_remappings_from, build_cmd_from.
    now rewrite <- !app_assoc. }
  destruct (main_shape a w)
    as (pre & called & post & errs & Et & Herrs & _ & _ & Ecalled & _).
  rewrite Et. cbn [filter is_run].
  rewrite !filter_app, !printed_no_run, (stderr_no_run _ Herrs), Ecalled.
  unfold Runner.spawns.
  destruct (remappings_read w) as [lines|]; [|reflexivity].
  rewrite <- Hcall.
  destruct (remappings_exists w && node_modules_exists w
            && accepted w _); reflexivity.
Qed.

Lemma announce_no_entry :
  forall a w r cmd n, ~ In (py "  - " ++ n) (announce_texts a w r cmd).
Proof.
  intros a w r cmd n H. unfold Runner.announce_texts in H. cbn [In] in H.
  repeat (destruct H as [H|H]; [simpl in H; discriminate|]). destruct H.
Qed.

Lemma entry_text_in :
  forall listing n,
    In (py "  - " ++ n) (entry_texts listing) ->
    exists e, In e listing /\ entry_name e = n
              /\ startswith n RESULT_PREFIX = true.
Proof.
  intros listing n H. unfold entry_texts in H.
  apply in_map_iff in H as (e & He & Hin).
  apply filter_In in Hin as [Hin Hsw].
  apply app_inv_head in He. subst n. now exists e.
Qed.

Lemma after_child_entry :
  forall a w n,
    In (py "  - " ++ n) (after_child_texts a w) ->
    (exists c, child w = Terminates c \/ child w = Overruns c)
    /\ exists e, In e (root_entries w) /\ entry_name e = n
                 /\ startswith n RESULT_PREFIX = true.
Proof.
  intros a w n H. unfold after_child_texts in H.
  destruct (child w) as [c|c| |text]; try (now destruct H).
  - split; [exists c; now left|].
    unfold completion_texts in H. destruct H as [H|H].
    { destruct (c =? 0)%Z; simpl in H; discriminate. }
    destruct (matching (root_entries w)).
    + destruct H as [H|[]]. simpl in H. discriminate.
    + destruct H as [H|H]; [simpl in H; discriminate|].
      now apply entry_text_in.
  - split; [exists c; now right|].
    unfold timeout_texts in H.
    destruct H as [H|[H|H]]; [simpl in H; discriminate ..|].
    destruct (matching (root_entries w)); [destruct H|].
    destruct H as [H|H]; [simpl in H; discriminate|].
    now apply entry_text_in.
Qed.

(** X13.  A line ["  - NAME"] on the standard output always stands for
    an entry of the project root called NAME whose name starts with
    [mcore_], found after a child that ended in time or ran into the
    timeout; nothing is listed when the binary is missing or
    [subprocess.run] raises.  In a run where nothing fails, every such
    entry is listed. *)
Theorem listed_iff_matching :
  forall a w n,
    (In (Print Stdout (py "  - " ++ n)) (trace (main a w)) ->
     (exists c, child w = Terminates c \/ child w = Overruns c)
     /\ exists e, In e (root_entries w) /\ entry_name e = n
                  /\ startswith n RESULT_PREFIX = true)
    /\ (clean a w = true ->
        (exists e, In e (root_entries w) /\ entry_name e = n
                   /\ startswith n RESULT_PREFIX = true) ->
        In (Print Stdout (py "  - " ++ n)) (trace (main a w))).
Proof.
  intros a w n.
  destruct (main_shape a w)
    as (pre & called & post & errs & Et & Herrs & Hclean & _ & Ecalled
        & Hpre & Hpost).
  rewrite Et. split.
  - intros [H|H]; [discriminate|].
    apply in_app_or in H as [H|H].
    { apply in_map_iff in H as (x & Hx & Hin). injection Hx as ->.
      destruct (Hpre _ Hin) as (lines & _ & Hann).
      now apply announce_no_entry in Hann. }
    apply in_app_or in H as [H|H].
    { rewrite Ecalled in H. destruct (remappings_read w); [|destruct H].
      destruct (spawns a w); [|destruct H].
      destruct H as [H|[]]. discriminate. }
    apply in_app_or in H as [H|H].
    { apply in_map_iff in H as (x & Hx & Hin). injection Hx as ->.
      exact (after_child_entry _ _ _ (Hpost _ Hin)). }
    rewrite forallb_forall in Herrs. now apply Herrs in H.
  - intros Hc (e & Hin & <- & Hsw). rewrite Hc in Hclean.
    destruct Hclean as [_ ->].
    destruct (clean_inv _ _ Hc) as (_ & _ & _ & c & Hchild).
    destruct (entry_texts_in _ _ Hin Hsw) as [Hline Hne].
    right. apply in_or_app. right. apply in_or_app. right.
    apply in_or_app. left. apply in_map.
    unfold after_child_texts.
    destruct Hchild as [Hchild|Hchild]; rewrite Hchild.
    + unfold completion_texts.
      destruct (matching (root_entries w)); [contradiction|].
      right. now right.
    + unfold timeout_texts.
      destruct (matching (root_entries w)); [contradiction|].
      right. right. now right.
Qed.

Lemma announce_not_no_dirs :
  forall a w r cmd, ~ In msg_no_dirs (announce_texts a w r cmd).
Proof.
  intros a w r cmd H. unfold Runner.announce_texts in H. cbn [In] in H.
  repeat (destruct H as [H|H]; [simpl in H; discriminate|]). destruct H.
Qed.

Lemma announce_not_partial :
  forall a w r cmd, ~ In PARTIAL_HEADING (announce_texts a w r cmd).
Proof.
  intros a w r cmd H. unfold Runner.announce_texts in H. cbn [In] in H.
  repeat (destruct H as [H|H]; [simpl in H; discriminate|]). destruct H.
Qed.

(** X14.  When no entry of the project root starts with [mcore_] and
    nothing fails: after a child that ended in time the run ends on the
    warning that no [mcore_*] directory was found; after a timeout it
    prints neither that warning nor a heading, and ends on the line
    about partial results. *)
Theorem nothing_to_list :
  forall a w c,
    clean a w = true -> matching (root_entries w) = [] ->
    (child w = Terminates c ->
     last (trace (main a w)) PrintExc = Print Stdout msg_no_dirs)
    /\ (child w = Overruns c ->
        last (trace (main a w)) PrintExc
        = Print Stdout
            (py "Partial results may be available in mcore_* directories")
        /\ ~ In (Print Stdout msg_no_dirs) (trace (main a w))
        /\ ~ In (Print Stdout PARTIAL_HEADING) (trace (main a w))).
Proof.
  intros a w c Hc Hnone.
  destruct (clean_inv _ _ Hc) as (lines & Hreach & Hacc & _).
  unfold after_child_texts in Hacc.
  split; intro Hchild; rewrite Hchild in Hacc.
  - rewrite (main_terminates _ Hreach Hchild Hacc). cbn [trace].
    unfold completion_texts. rewrite Hnone. cbn [map].
    rewrite (cons_as_app (the_call a w lines)),
            (cons_as_app (Print Stdout (if (c =? 0)%Z then _ else _))).
    rewrite !app_assoc. apply last_last.
  - rewrite (main_overruns _ Hreach Hchild Hacc). cbn [trace].
    unfold timeout_texts. rewrite Hnone. cbn [map].
    split; [|split].
    + rewrite (cons_as_app (the_call a w lines)),
              (cons_as_app (Print Stdout (msg_timed_out _))).
      rewrite !app_assoc. apply last_last.
    + intro H. apply in_app_or in H as [H|H];
        [destruct H as [H|[]]; discriminate|].
      apply in_app_or in H as [H|H].
      * apply in_map_iff in H as (x & Hx & Hin). injection Hx as ->.
        now apply announce_not_no_dirs in Hin.
      * cbn [In] in H.
        repeat (destruct H as [H|H]; [simpl in H; discriminate|]).
        destruct H.
    + intro H. apply in_app_or in H as [H|H];
        [destruct H as [H|[]]; discriminate|].
      apply in_app_or in H as [H|H].
      * apply in_map_iff in H as (x & Hx & Hin). injection Hx as ->.
        now apply announce_not_partial in Hin.
      * cbn [In] in H.
        repeat (destruct H as [H|H]; [simpl in H; discriminate|]).
        destruct H.
Qed.

End Outcomes.

End RunnerOutcomeFacts.

(* ================================================================== *)
(** * The runner: the remappings file *)
(* ================================================================== *)

Module RemappingFacts.
Import Overlap StrFacts ScanFacts Runner RunnerFile RunnerFacts.

Lemma read_remappings_kept :
  forall lines, read_remappings lines = kept_lines lines.
Proof.
  intro lines. unfold read_remappings. now rewrite read_remappings_from.
Qed.

Lemma lstrip_head :
  forall s c t, lstrip s = c :: t -> isspace c = false.
Proof.
  induction s as [|x s IH]; intros c t H; [discriminate|].
  cbn [lstrip] in H. destruct (isspace x) eqn:E.
  - now apply IH with t.
  - now injection H as <- _.
Qed.

Lemma lstrip_keeps :
  forall c s, isspace c = false -> lstrip (c :: s) = c :: s.
Proof. intros c s H. cbn [lstrip]. now rewrite H. Qed.

Lemma lstrip_idem : forall s, lstrip (lstrip s) = lstrip s.
Proof.
  intro s. destruct (lstrip s) as [|c t] eqn:E; [reflexivity|].
  apply lstrip_keeps. now apply lstrip_head with s t.
Qed.

Lemma lstrip_app :
  forall a b,
    lstrip (a ++ b) =
    match lstrip a with
    | [] => lstrip b
    | _ :: _ => lstrip a ++ b
    end.
Proof.
  induction a as [|x a IH]; intro b; [reflexivity|].
  cbn [app lstrip]. destruct (isspace x); [apply IH|reflexivity].
Qed.

Lemma rstrip_cons :
  forall c s, isspace c = false -> rstrip (c :: s) = c :: rstrip s.
Proof.
  intros c s H. unfold rstrip. cbn [rev]. rewrite lstrip_app.
  destruct (lstrip (rev s)) as [|x t].
  - now rewrite lstrip_keeps.
  - now rewrite rev_app_distr.
Qed.

Lemma rstrip_idem : forall s, rstrip (rstrip s) = rstrip s.
Proof.
  intro s. unfold rstrip. now rewrite rev_involutive, lstrip_idem.
Qed.

Lemma strip_shape :
  forall s, strip s = [] \/
            exists c t, strip s = c :: t /\ isspace c = false
                        /\ lstrip s = c :: (skipn 1 (lstrip s))
                        /\ t = rstrip (skipn 1 (lstrip s)).
Proof.
  intro s. unfold strip. destruct (lstrip s) as [|c t] eqn:E.
  - now left.
  - right. pose proof (lstrip_head _ E) as Hc.
    exists c, (rstrip t). rewrite rstrip_cons by assumption.
    repeat split. exact Hc.
Qed.

Lemma strip_idem : forall s, strip (strip s) = strip s.
Proof.
  intro s. destruct (strip_shape s) as [E|(c & t & E & Hc & _ & Ht)].
  - rewrite E. reflexivity.
  - rewrite E. unfold strip at 1. rewrite lstrip_keeps by assumption.
    rewrite rstrip_cons by assumption. f_equal.
    rewrite Ht. apply rstrip_idem.
Qed.

Lemma strip_last :
  forall s, strip s <> [] -> isspace (last (strip s) 0%N) = false.
Proof.
  intros s H. unfold strip, rstrip in *.
  destruct (lstrip (rev (lstrip s))) as [|c t] eqn:E; [contradiction|].
  cbn [rev]. rewrite last_last. now apply lstrip_head with (rev (lstrip s)) t.
Qed.

(** Stripping does not see a line feed at the end. *)
Lemma strip_line_feed : forall s, strip (s ++ NL) = strip s.
Proof.
  intro s. unfold strip. rewrite lstrip_app.
  destruct (lstrip s) as [|c t] eqn:E; [reflexivity|].
  unfold rstrip. now rewrite rev_app_distr.
Qed.

(** X15.  Every parsed remapping is non-empty, does not start with [#],
    and has no white space at either end; stripping it again changes
    nothing. *)
Theorem remappings_normalised :
  forall lines r,
    In r (read_remappings lines) ->
    r <> [] /\ startswith r (py "#") = false
    /\ strip r = r
    /\ isspace (hd 0%N r) = false
    /\ isspace (last r 0%N) = false.
Proof.
  intros lines r H. rewrite read_remappings_kept in H.
  unfold kept_lines in H. apply filter_In in H as [H He].
  apply in_map_iff in H as (raw & <- & _).
  unfold is_entry, blank, comment in He.
  apply andb_prop in He as [Hb Hc].
  apply negb_true_iff in Hb, Hc.
  assert (Hne : strip raw <> []).
  { intro E. rewrite E in Hb. now rewrite pystr_eqb_refl in Hb. }
  split; [exact Hne|]. split; [exact Hc|]. split; [apply strip_idem|].
  split; [|now apply strip_last].
  destruct (strip_shape raw) as [E|(c & t & E & Hsp & _)];
    [contradiction|].
  now rewrite E.
Qed.

(** X16.  Parsing is stable: the parsed list, read as lines again, gives
    itself, and stripping the lines beforehand changes nothing. *)
Theorem read_remappings_stable :
  forall lines,
    read_remappings (read_remappings lines) = read_remappings lines
    /\ read_remappings (map strip lines) = read_remappings lines.
Proof.
  intro lines. rewrite !read_remappings_kept. unfold kept_lines. split.
  - induction (map strip lines) as [|x l IH] eqn:E in lines |- *.
    + reflexivity.
    + destruct lines as [|raw lines]; [discriminate|].
      cbn [map] in E. injection E as <- <-.
      cbn [filter]. destruct (is_entry (strip raw)) eqn:Ee.
      * cbn [map filter]. rewrite strip_idem, Ee. f_equal.
        apply (IH lines eq_refl).
      * apply (IH lines eq_refl).
  - rewrite map_map. f_equal. apply map_ext. intro a. apply strip_idem.
Qed.

Lemma kept_lines_app :
  forall a b, kept_lines (a ++ b) = kept_lines a ++ kept_lines b.
Proof. intros. unfold kept_lines. now rewrite map_app, filter_app. Qed.

(** What iterating a text yields, against the text split at its line
    feeds. *)
Lemma file_lines_split :
  forall text,
    kept_lines (file_lines text) = kept_lines (str_split NL text)
    /\ (text = [] \/
        exists l ls h t,
          file_lines text = l :: ls /\ str_split NL text = h :: t
          /\ ((l = h ++ NL /\ kept_lines ls = kept_lines t)
              \/ (l = h /\ ls = [] /\ t = []))).
Proof.
  assert (Hnl : NL <> []) by discriminate.
  intro text. pattern text. apply (scan_ind Hnl); clear text.
  - split; [reflexivity|now left].
  - intros rest [IH _]. change (NL ++ rest) with (10%N :: rest).
    change (10%N :: rest) with (NL ++ rest) at 2 4.
    rewrite str_split_match by exact Hnl. cbn [file_lines N.eqb Pos.eqb].
    split.
    + change ([10%N] :: file_lines rest) with ([NL] ++ file_lines rest).
      change ([] :: str_split NL rest) with ([[]] ++ str_split NL rest).
      rewrite !kept_lines_app, IH. reflexivity.
    + right. exists NL, (file_lines rest), [], (str_split NL rest).
      repeat split. left. now split.
  - intros c s Hsw [IH Hshape].
    assert (Hc : N.eqb c 10 = false).
    { destruct (N.eqb c 10) eqn:E; [|reflexivity].
      apply N.eqb_eq in E. subst c. discriminate. }
    rewrite str_split_skip by assumption. cbn [file_lines]. rewrite Hc.
    destruct Hshape as [->|(l & ls & h & t & Hf & Hs & Hrel)].
    + rewrite str_split_nil by exact Hnl. cbn [file_lines].
      split; [reflexivity|]. right. exists [c], [], [c], [].
      repeat split. now right.
    + rewrite Hf, Hs. split.
      * destruct Hrel as [[-> Hk]|(-> & -> & ->)]; [|reflexivity].
        change ((c :: h ++ NL) :: ls) with ([(c :: h) ++ NL] ++ ls).
        change ((c :: h) :: t) with ([c :: h] ++ t).
        rewrite !kept_lines_app, Hk. f_equal.
        unfold kept_lines. cbn [map]. now rewrite strip_line_feed.
      * right. exists (c :: l), ls, (c :: h), t. repeat split.
        destruct Hrel as [[-> Hk]|(-> & -> & ->)]; [left|right]; now split.
Qed.

Lemma split_at_line_feed :
  forall a b, str_split NL (a ++ NL ++ b) = str_split NL a ++ str_split NL b.
Proof.
  assert (Hnl : NL <> []) by discriminate.
  intros a b. pattern a. apply (scan_ind Hnl); clear a.
  - rewrite str_split_nil by exact Hnl.
    cbn [app]. change (10%N :: b) with (NL ++ b).
    now rewrite str_split_match.
  - intros rest IH. rewrite <- app_assoc.
    rewrite !str_split_match by exact Hnl. now rewrite IH.
  - intros c s Hsw IH. cbn [app].
    assert (Hsw' : startswith (c :: s ++ NL ++ b) NL = false).
    { assert (H1 : forall x, startswith (c :: x) NL = (10 =? c)%N)
        by (intro x; unfold NL; cbn [startswith]; apply andb_true_r).
      rewrite H1 in *. exact Hsw. }
    rewrite !str_split_skip by assumption. rewrite IH.
    pose proof (str_split_nonempty Hnl s) as Hne.
    destruct (str_split NL s); [contradiction|reflexivity].
Qed.

(** X17.  Parsing the text of the file gives the kept lines of the text
    split at its line feeds.  Hence a line feed at the end of the file
    makes no difference, and the remappings of two texts put one after
    the other, with a line feed between them, are the remappings of the
    first followed by those of the second. *)
Theorem parse_remappings_text :
  forall text,
    parse_remappings text = kept_lines (str_split NL text)
    /\ parse_remappings (text ++ NL) = parse_remappings text
    /\ forall more,
         parse_remappings (text ++ NL ++ more)
         = parse_remappings text ++ parse_remappings more.
Proof.
  intro text.
  assert (E : forall x, parse_remappings x = kept_lines (str_split NL x)).
  { intro x. unfold parse_remappings. rewrite read_remappings_kept.
    apply file_lines_split. }
  assert (Happ : forall more,
             parse_remappings (text ++ NL ++ more)
             = parse_remappings text ++ parse_remappings more).
  { intro more. rewrite !E, split_at_line_feed. apply kept_lines_app. }
  split; [apply E|]. split; [|exact Happ].
  rewrite <- (app_nil_r NL) at 1. rewrite Happ.
  change (parse_remappings []) with (@nil pystr). apply app_nil_r.
Qed.

End RemappingFacts.

(* ================================================================== *)
(** * The further theorems on the sample inputs *)
(* ================================================================== *)

Module MoreInstances.
Import Overlap Patcher Runner PatcherMain RunnerFile Samples MoreSamples.
Import PatcherMainFacts PatcherTextFacts RunnerOutcomeFacts RemappingFacts.

Example two_copies_patched :
  find_wasm_types two_copies = Some (types_under local_packages)
  /\ snd (PatcherMain.main two_copies) = 0%Z
  /\ stores (fst (PatcherMain.main two_copies)) =
     [(types_under local_packages,
       py "import collections" ++ NL ++ py "import collections.abc" ++ NL
       ++ py "f = collections.abc.Callable" ++ NL)].
Proof. vm_compute. repeat split. Qed.

Example aliased_text_transformed :
  transform aliased_text =
  py "import collections as c" ++ NL
  ++ py "f = collections.abc.Callable" ++ NL.
Proof. vm_compute. reflexivity. Qed.

Example file_lines_ex :
  file_lines (py "a=b" ++ NL ++ NL ++ py "# c" ++ NL ++ py "d=e")
  = [py "a=b" ++ NL; NL; py "# c" ++ NL; py "d=e"]
  /\ parse_remappings (py "a=b" ++ NL ++ NL ++ py "# c" ++ NL ++ py "d=e")
     = [py "a=b"; py "d=e"].
Proof. vm_compute. split; reflexivity. Qed.


Lemma import_ensured_witness :
  str_in IMPORT_ABC legacy_text = false
  /\ str_in IMPORT_ABC (transform legacy_text) = true.
Proof.
  split; [reflexivity|].
  apply import_ensured. right. left. reflexivity.
Defined.

Lemma import_skipped_witness :
  add_import aliased_text = aliased_text
  /\ occurrences (IMPORT_ABC ++ NL) (transform aliased_text) = 0.
Proof.
  destruct (@import_skipped aliased_text eq_refl eq_refl eq_refl)
    as (H1 & _ & H3).
  split; [exact H1|exact H3].
Defined.

Lemma import_inserted_before_first_code_line_witness :
  add_import bare_text =
  str_join NL [py "# types"; IMPORT_ABC; py "f = 1"; []].
Proof.
  pose proof (@import_inserted_before_first_code_line bare_text eq_refl)
    as H.
  cbv zeta in H. destruct H as (H & _). exact H.
Defined.

Lemma listed_iff_matching_witness :
  In (Print Stdout (py "  - mcore_a1"))
     (trace (Runner.main plain_list no_text token_args
               (project (Terminates 0)))).
Proof.
  apply (proj2 (@listed_iff_matching plain_list no_text token_args
                  (project (Terminates 0)) (py "mcore_a1"))).
  - vm_compute. reflexivity.
  - exists {| entry_name := py "mcore_a1"; entry_is_dir := true |}.
    split; [now left|]. split; reflexivity.
Defined.

Lemma nothing_to_list_witness :
  last (trace (Runner.main plain_list no_text token_args
                 (clean_project (Terminates 0)))) PrintExc
  = Print Stdout msg_no_dirs.
Proof.
  apply (proj1 (@nothing_to_list plain_list no_text token_args
                  (clean_project (Terminates 0)) 0%Z eq_refl eq_refl)).
  reflexivity.
Defined.

Lemma remappings_normalised_witness :
  strip (py "ds-test/=lib/ds-test/src/") = py "ds-test/=lib/ds-test/src/".
Proof.
  destruct (@remappings_normalised remappings_txt
              (py "ds-test/=lib/ds-test/src/")) as (_ & _ & H & _).
  - right. left. reflexivity.
  - exact H.
Defined.

End MoreInstances.
